(** * Pinniped: validation and caching of LDAP / Active Directory upstreams

    A shallow embedding of package [upstreamwatchers]
    (internal/controller/supervisorconfig/upstreamwatchers): the settings
    cache, the bind-secret and TLS validators, the TLS-then-StartTLS
    connection probe, the cache-aware connectivity step, the orchestrator
    [ValidateGenericLDAP] and the publication decision [EvaluateConditions].

    Conventions.
    - A Go [string] and a Go [[]byte] are both byte sequences; a [string] is
      modelled by [string], a [[]byte] by [list byte].
    - A Go [*v1alpha1.Condition] is modelled by [option Condition], [None]
      being the nil pointer.  Dereferencing nil panics; the one function
      that can do so returns in [option], [None] being the panic.
    - A Go [int64] generation is modelled by [Z].
    - The [*upstreamldap.ProviderConfig] that the functions mutate through a
      pointer, the shared settings cache and the network are threaded
      through a state monad.  The network is not executed: every connection
      attempt and every search-base query is appended to a trace, and their
      outcome is an arbitrary function of the trace so far and of the
      configuration used.
    - [context.WithTimeout] and [plog] calls have no effect on the values
      computed and are left out. *)

From Stdlib Require Import ZArith Ascii String.
From Stdlib.Strings Require Import Byte.
From stdpp Require Import gmap strings list fin_maps.

Local Open Scope Z_scope.
Local Open Scope string_scope.

(* ------------------------------------------------------------------ *)
(** ** Constants *)

(** The double quote character, which the message formats embed. *)
Definition dq : string := String (ascii_of_nat 34) EmptyString.

Definition ReasonNotFound : string := "SecretNotFound".
Definition ReasonWrongType : string := "SecretWrongType".
Definition ReasonMissingKeys : string := "SecretMissingKeys".
Definition ReasonSuccess : string := "Success".
Definition ReasonInvalidTLSConfig : string := "InvalidTLSConfig".
Definition ErrNoCertificates : string := "no certificates found".

Definition typeBindSecretValid : string := "BindSecretValid".
Definition typeTLSConfigurationValid : string := "TLSConfigurationValid".
Definition typeLDAPConnectionValid : string := "LDAPConnectionValid".
Definition TypeSearchBaseFound : string := "SearchBaseFound".
Definition reasonLDAPConnectionError : string := "LDAPConnectionError".
Definition noTLSConfigurationMessage : string := "no TLS configuration provided".
Definition loadedTLSConfigurationMessage : string := "loaded TLS configuration".

(** corev1 constants. *)
Definition SecretTypeBasicAuth : string := "kubernetes.io/basic-auth".
Definition BasicAuthUsernameKey : string := "username".
Definition BasicAuthPasswordKey : string := "password".

(* ------------------------------------------------------------------ *)
(** ** Data model *)

(** v1alpha1.ConditionStatus. *)
Inductive ConditionStatus := ConditionTrue | ConditionFalse | ConditionUnknown.

Global Instance ConditionStatus_eq_dec : EqDecision ConditionStatus.
Proof. solve_decision. Defined.

(** v1alpha1.Condition, with the fields this package writes. *)
Record Condition := mkCondition {
  Type_ : string;
  Status : ConditionStatus;
  Reason : string;
  Message : string
}.

(** The generated [DeepCopy] method of a condition pointer: nil for nil, else a fresh copy
    with the same field values. *)
Definition DeepCopy (c : option Condition) : option Condition :=
  match c with
  | None => None
  | Some x => Some (mkCondition (Type_ x) (Status x) (Reason x) (Message x))
  end.

(** upstreamldap.LDAPConnectionProtocol: a closed two-value enumeration. *)
Inductive LDAPConnectionProtocol := TLS | StartTLS.

Global Instance LDAPConnectionProtocol_eq_dec : EqDecision LDAPConnectionProtocol.
Proof. solve_decision. Defined.

Record UserSearchConfig := mkUserSearch {
  us_Base : string;
  us_Filter : string;
  us_UsernameAttribute : string;
  us_UIDAttribute : string
}.

Record GroupSearchConfig := mkGroupSearch {
  gs_Base : string;
  gs_Filter : string;
  gs_GroupNameAttribute : string
}.

(** upstreamldap.ProviderConfig, with the fields this package reads or
    writes.  [CABundle] is a byte slice: [None] is the nil slice. *)
Record ProviderConfig := mkProviderConfig {
  Name : string;
  Host : string;
  ConnectionProtocol : LDAPConnectionProtocol;
  CABundle : option (list byte);
  BindUsername : string;
  BindPassword : string;
  UserSearch : UserSearchConfig;
  GroupSearch : GroupSearchConfig
}.

Definition set_ConnectionProtocol (p : LDAPConnectionProtocol) (c : ProviderConfig) : ProviderConfig :=
  mkProviderConfig (Name c) (Host c) p (CABundle c) (BindUsername c)
    (BindPassword c) (UserSearch c) (GroupSearch c).

Definition set_CABundle (b : option (list byte)) (c : ProviderConfig) : ProviderConfig :=
  mkProviderConfig (Name c) (Host c) (ConnectionProtocol c) b (BindUsername c)
    (BindPassword c) (UserSearch c) (GroupSearch c).

Definition set_BindUsername (u : string) (c : ProviderConfig) : ProviderConfig :=
  mkProviderConfig (Name c) (Host c) (ConnectionProtocol c) (CABundle c) u
    (BindPassword c) (UserSearch c) (GroupSearch c).

Definition set_BindPassword (p : string) (c : ProviderConfig) : ProviderConfig :=
  mkProviderConfig (Name c) (Host c) (ConnectionProtocol c) (CABundle c)
    (BindUsername c) p (UserSearch c) (GroupSearch c).

Definition set_UserSearchBase (b : string) (c : ProviderConfig) : ProviderConfig :=
  let u := UserSearch c in
  mkProviderConfig (Name c) (Host c) (ConnectionProtocol c) (CABundle c)
    (BindUsername c) (BindPassword c)
    (mkUserSearch b (us_Filter u) (us_UsernameAttribute u) (us_UIDAttribute u))
    (GroupSearch c).

Definition set_GroupSearchBase (b : string) (c : ProviderConfig) : ProviderConfig :=
  let g := GroupSearch c in
  mkProviderConfig (Name c) (Host c) (ConnectionProtocol c) (CABundle c)
    (BindUsername c) (BindPassword c) (UserSearch c)
    (mkGroupSearch b (gs_Filter g) (gs_GroupNameAttribute g)).

(** Modelled from the spec: [upstreamldap.New] and the provider type it
    returns are declared in package upstreamldap, which is not among the
    sources.  The spec says a provider instance is constructed from the
    config, which is handed over by copy: a provider holds the value the
    configuration had when [New] was called. *)
Record Provider := New { provider_config : ProviderConfig }.

(** ValidatedSettings is the struct which is cached. *)
Record ValidatedSettings := mkValidatedSettings {
  IDPSpecGeneration : Z;
  BindSecretResourceVersion : string;
  LDAPConnectionProtocol_ : LDAPConnectionProtocol;
  UserSearchBase : string;
  GroupSearchBase : string;
  ConnectionValidCondition : option Condition;
  SearchBaseFoundCondition : option Condition
}.

(** The Go zero value [ValidatedSettings{}]; the zero value of the
    protocol type is not observable through this package and TLS stands
    for it. *)
Definition zeroValidatedSettings : ValidatedSettings :=
  mkValidatedSettings 0 "" TLS "" "" None None.

(* ------------------------------------------------------------------ *)
(** ** The settings cache *)

Module ValidatedSettingsCache.

(** [ValidatedSettingsByName map[string]ValidatedSettings]. *)
Abbreviation t := (gmap string ValidatedSettings).

Definition NewValidatedSettingsCache : t := ∅.

Definition Get (s : t) (upstreamName resourceVersion : string)
    (idpSpecGeneration : Z) : ValidatedSettings * bool :=
  match s !! upstreamName with
  | Some validatedSettings =>
      if bool_decide (BindSecretResourceVersion validatedSettings = resourceVersion)
         && bool_decide (IDPSpecGeneration validatedSettings = idpSpecGeneration)
      then (validatedSettings, true)
      else (zeroValidatedSettings, false)
  | None => (zeroValidatedSettings, false)
  end.

Definition Set_ (s : t) (upstreamName : string) (settings : ValidatedSettings) : t :=
  <[upstreamName := settings]> s.

(** A client's operation on the cache.  [Get] leaves the map as it is. *)
Inductive Op :=
| OpSet (upstreamName : string) (settings : ValidatedSettings)
| OpGet (upstreamName resourceVersion : string) (idpSpecGeneration : Z).

Definition step (s : t) (o : Op) : t :=
  match o with
  | OpSet n v => Set_ s n v
  | OpGet n r g => let _ := Get s n r g in s
  end.

Definition run (ops : list Op) (s : t) : t := foldl step s ops.

(** The settings most recently stored under [name] by a [Set] of [ops],
    read off the operations alone. *)
Fixpoint lastSet (name : string) (ops : list Op) (acc : option ValidatedSettings)
    : option ValidatedSettings :=
  match ops with
  | [] => acc
  | OpSet n v :: rest =>
      lastSet name rest (if bool_decide (n = name) then Some v else acc)
  | OpGet _ _ _ :: rest => lastSet name rest acc
  end.

End ValidatedSettingsCache.

Import ValidatedSettingsCache.

(* ------------------------------------------------------------------ *)
(** ** Collaborators *)

(** v1alpha1.TLSSpec. *)
Record TLSSpec := mkTLSSpec { CertificateAuthorityData : string }.

(** corev1.Secret, with the fields read here. *)
Record Secret := mkSecret {
  secret_Type : string;
  secret_ResourceVersion : string;
  secret_Data : gmap string (list byte)
}.

(** An error of the secret lister: a missing secret, or any other failure
    of the lookup.  [Error] is the Go method of that name. *)
Inductive LookupError :=
| ErrSecretNotFound (msg : string)
| ErrUnexpected (msg : string).

Definition Error (e : LookupError) : string :=
  match e with ErrSecretNotFound m => m | ErrUnexpected m => m end.

(** [secretInformer.Lister().Secrets(namespace).Get(name)]. *)
Definition SecretInformer := string → string → LookupError + Secret.

(** What happened on the network, oldest first. *)
Inductive Event :=
| EvTestConnection (p : Provider)
| EvDetectAndSetSearchBase (c : ProviderConfig).

Definition isTestConnection (e : Event) : bool :=
  match e with EvTestConnection _ => true | _ => false end.

Definition isStartTLSAttempt (e : Event) : bool :=
  match e with
  | EvTestConnection p =>
      bool_decide (ConnectionProtocol (provider_config p) = StartTLS)
  | _ => false
  end.

(** What the package takes from outside the repository. *)
Record Env := mkEnv {
  (** [base64.StdEncoding.DecodeString]: the bytes, or the error text. *)
  base64_DecodeString : string → string + list byte;
  (** [x509.CertPool.AppendCertsFromPEM] on a new pool. *)
  x509_AppendCertsFromPEM : list byte → bool;
  (** The [%q] verb of [fmt.Sprintf] on a string. *)
  fmt_q : string → string;
  (** [(Provider).TestConnection]: nil, or the error text of a failed dial
      or bind, given what happened before. *)
  provider_TestConnection : list Event → Provider → option string
}.

(** The read-only interface abstracting LDAP and Active Directory
    upstreams, its [Spec()] accessors flattened.  The one capability,
    [DetectAndSetSearchBase], may query the server and may write to the
    configuration it is given. *)
Record UpstreamGenericLDAPIDP := mkUpstream {
  idp_Name : string;
  idp_Namespace : string;
  idp_Generation : Z;
  spec_Host : string;
  spec_TLSSpec : option TLSSpec;
  spec_BindSecretName : string;
  spec_DetectAndSetSearchBase :
    list Event → ProviderConfig → option Condition * ProviderConfig
}.

(* ------------------------------------------------------------------ *)
(** ** State *)

Record St := mkSt {
  config : ProviderConfig;
  cache : gmap string ValidatedSettings;
  trace : list Event
}.

Definition M (A : Type) : Type := St → A * St.

Global Instance M_ret : MRet M := λ A a s, (a, s).
Global Instance M_bind : MBind M :=
  λ A B k m s, let '(a, s') := m s in k a s'.

Definition getConfig : M ProviderConfig := λ s, (config s, s).
Definition modifyConfig (f : ProviderConfig → ProviderConfig) : M unit :=
  λ s, (tt, mkSt (f (config s)) (cache s) (trace s)).
Definition cacheGet (n r : string) (g : Z) : M (ValidatedSettings * bool) :=
  λ s, (Get (cache s) n r g, s).
Definition cacheSet (n : string) (v : ValidatedSettings) : M unit :=
  λ s, (tt, mkSt (config s) (Set_ (cache s) n v) (trace s)).

(** Go's [+] on strings. *)
Infix "+++" := String.append (at level 60, right associativity).

(** [strings.Contains]. *)
Definition Contains (s sub : string) : Prop := ∃ p q, s = p +++ sub +++ q.

(** gradatedCondition is a condition and a boolean that tells you whether
    the condition is fatal or just a warning. *)
Record gradatedCondition := mkGradated {
  condition : option Condition;
  isFatal : bool
}.

(** GradatedConditions is a list of conditions, where each condition can
    additionally be considered fatal or non-fatal. *)
Record GradatedConditions := mkGradatedConditions {
  gradatedConditions : list gradatedCondition
}.

Definition Conditions (g : GradatedConditions) : list (option Condition) :=
  map condition (gradatedConditions g).

Definition Append (g : GradatedConditions) (c : option Condition) (fatal : bool)
    : GradatedConditions :=
  mkGradatedConditions (gradatedConditions g ++ [mkGradated c fatal]).

Definition validTLSCondition (message : string) : Condition :=
  mkCondition typeTLSConfigurationValid ConditionTrue ReasonSuccess message.

Definition invalidTLSCondition (message : string) : Condition :=
  mkCondition typeTLSConfigurationValid ConditionFalse ReasonInvalidTLSConfig message.

(** The Go conversion [string(b)] of a byte slice, nil included. *)
Definition string_of_bytes (b : option (list byte)) : string :=
  match b with None => "" | Some l => string_of_list_byte l end.

Section Upstreamwatchers.

Variable env : Env.

Definition ValidateTLSConfig (tlsSpec : option TLSSpec) : M Condition :=
  match tlsSpec with
  | None => mret (validTLSCondition noTLSConfigurationMessage)
  | Some tlsSpec =>
      if (String.length (CertificateAuthorityData tlsSpec) =? 0)%nat
      then mret (validTLSCondition loadedTLSConfigurationMessage)
      else
        match base64_DecodeString env (CertificateAuthorityData tlsSpec) with
        | inl err =>
            mret (invalidTLSCondition ("certificateAuthorityData is invalid: " +++ err))
        | inr bundle =>
            if negb (x509_AppendCertsFromPEM env bundle)
            then mret (invalidTLSCondition
                        ("certificateAuthorityData is invalid: " +++ ErrNoCertificates))
            else
              modifyConfig (set_CABundle (Some bundle)) ;;
              mret (validTLSCondition loadedTLSConfigurationMessage)
        end
  end.

(** [provider.TestConnection(ctx)]: the attempt is recorded, its outcome
    is the environment's. *)
Definition testConnection (p : Provider) : M (option string) :=
  λ s, (provider_TestConnection env (trace s) p,
        mkSt (config s) (cache s) (trace s ++ [EvTestConnection p])).

Definition TestConnection (bindSecretName currentSecretVersion : string) : M Condition :=
  (* First try using TLS. *)
  modifyConfig (set_ConnectionProtocol TLS) ;;
  c ← getConfig;
  err ← testConnection (New c);
  err ←
    match err with
    | Some e =>
        (* If there was any error, try again with StartTLS instead. *)
        modifyConfig (set_ConnectionProtocol StartTLS) ;;
        c ← getConfig;
        startTLSErr ← testConnection (New c);
        match startTLSErr with
        | None => mret None
        | Some _ =>
            modifyConfig (set_ConnectionProtocol TLS) ;;
            mret (Some e)
        end
    | None => mret None
    end;
  c ← getConfig;
  match err with
  | Some e =>
      mret (mkCondition typeLDAPConnectionValid ConditionFalse reasonLDAPConnectionError
             ("could not successfully connect to " +++ dq +++ Host c +++ dq
              +++ " and bind as user " +++ dq +++ BindUsername c +++ dq
              +++ ": " +++ e))
  | None =>
      mret (mkCondition typeLDAPConnectionValid ConditionTrue ReasonSuccess
             ("successfully able to connect to " +++ dq +++ Host c +++ dq
              +++ " and bind as user " +++ dq +++ BindUsername c +++ dq
              +++ " [validated with Secret " +++ dq +++ bindSecretName +++ dq
              +++ " at version " +++ dq +++ currentSecretVersion +++ dq +++ "]"))
  end.

Definition ValidateSecret (secretInformer : SecretInformer)
    (secretName secretNamespace : string) : M (Condition * string) :=
  match secretInformer secretNamespace secretName with
  | inl err =>
      mret (mkCondition typeBindSecretValid ConditionFalse ReasonNotFound (Error err), "")
  | inr secret =>
      if negb (bool_decide (secret_Type secret = SecretTypeBasicAuth))
      then
        mret (mkCondition typeBindSecretValid ConditionFalse ReasonWrongType
               ("referenced Secret " +++ fmt_q env secretName
                +++ " has wrong type " +++ fmt_q env (secret_Type secret)
                +++ " (should be " +++ fmt_q env SecretTypeBasicAuth +++ ")"),
             secret_ResourceVersion secret)
      else
        modifyConfig (set_BindUsername
          (string_of_bytes (secret_Data secret !! BasicAuthUsernameKey))) ;;
        modifyConfig (set_BindPassword
          (string_of_bytes (secret_Data secret !! BasicAuthPasswordKey))) ;;
        c ← getConfig;
        if (String.length (BindUsername c) =? 0)%nat
           || (String.length (BindPassword c) =? 0)%nat
        then
          mret (mkCondition typeBindSecretValid ConditionFalse ReasonMissingKeys
                 ("referenced Secret " +++ fmt_q env secretName
                  +++ " is missing required keys ["
                  +++ fmt_q env BasicAuthUsernameKey +++ " "
                  +++ fmt_q env BasicAuthPasswordKey +++ "]"),
               secret_ResourceVersion secret)
        else
          mret (mkCondition typeBindSecretValid ConditionTrue ReasonSuccess
                 "loaded bind secret",
               secret_ResourceVersion secret)
  end.

(** [upstream.Spec().DetectAndSetSearchBase(ctx, config)]: the query is
    recorded with the configuration it was given. *)
Definition detectAndSetSearchBase (upstream : UpstreamGenericLDAPIDP)
    : M (option Condition) :=
  λ s, let '(c, config') := spec_DetectAndSetSearchBase upstream (trace s) (config s) in
       (c, mkSt config' (cache s) (trace s ++ [EvDetectAndSetSearchBase (config s)])).

(** The guard of the write to the cache: no failures, a nil search-base
    condition being no failure. *)
Definition noFailures (ldapConnectionValidCondition : Condition)
    (searchBaseFoundCondition : option Condition) : bool :=
  bool_decide (Status ldapConnectionValidCondition = ConditionTrue)
  && match searchBaseFoundCondition with
     | None => true
     | Some c => bool_decide (Status c = ConditionTrue)
     end.

Definition validateAndSetLDAPServerConnectivityAndSearchBase
    (upstream : UpstreamGenericLDAPIDP) (currentSecretVersion : string)
    : M (option Condition * option Condition) :=
  '(validatedSettings, hasPreviousValidatedSettings) ←
    cacheGet (idp_Name upstream) currentSecretVersion (idp_Generation upstream);
  if hasPreviousValidatedSettings
     && bool_decide (UserSearchBase validatedSettings ≠ "")
     && bool_decide (GroupSearchBase validatedSettings ≠ "")
  then
    (* Found previously validated settings in the cache, so use them. *)
    modifyConfig (set_ConnectionProtocol (LDAPConnectionProtocol_ validatedSettings)) ;;
    modifyConfig (set_UserSearchBase (UserSearchBase validatedSettings)) ;;
    modifyConfig (set_GroupSearchBase (GroupSearchBase validatedSettings)) ;;
    mret (DeepCopy (ConnectionValidCondition validatedSettings),
          DeepCopy (SearchBaseFoundCondition validatedSettings))
  else
    (* Did not find previously validated settings in the cache, so probe
       the LDAP server. *)
    ldapConnectionValidCondition ←
      TestConnection (spec_BindSecretName upstream) currentSecretVersion;
    searchBaseFoundCondition ← detectAndSetSearchBase upstream;
    (if noFailures ldapConnectionValidCondition searchBaseFoundCondition
     then
       c ← getConfig;
       cacheSet (idp_Name upstream)
         (mkValidatedSettings
            (idp_Generation upstream)
            currentSecretVersion
            (ConnectionProtocol c)
            (us_Base (UserSearch c))
            (gs_Base (GroupSearch c))
            (DeepCopy (Some ldapConnectionValidCondition))
            (DeepCopy searchBaseFoundCondition))
     else mret tt) ;;
    mret (Some ldapConnectionValidCondition, searchBaseFoundCondition).

Definition ValidateGenericLDAP (upstream : UpstreamGenericLDAPIDP)
    (secretInformer : SecretInformer) : M GradatedConditions :=
  let conditions := mkGradatedConditions [] in
  '(secretValidCondition, currentSecretVersion) ←
    ValidateSecret secretInformer (spec_BindSecretName upstream) (idp_Namespace upstream);
  let conditions := Append conditions (Some secretValidCondition) true in
  tlsValidCondition ← ValidateTLSConfig (spec_TLSSpec upstream);
  let conditions := Append conditions (Some tlsValidCondition) true in
  (* No point in trying to connect to the server if the config was
     already determined to be invalid. *)
  if bool_decide (Status secretValidCondition = ConditionTrue)
     && bool_decide (Status tlsValidCondition = ConditionTrue)
  then
    '(ldapConnectionValidCondition, searchBaseFoundCondition) ←
      validateAndSetLDAPServerConnectivityAndSearchBase upstream currentSecretVersion;
    let conditions := Append conditions ldapConnectionValidCondition false in
    match searchBaseFoundCondition with
    | Some _ => mret (Append conditions searchBaseFoundCondition true)
    | None => mret conditions
    end
  else mret conditions.

End Upstreamwatchers.

(** One [for ... range] loop of [EvaluateConditions]: [Some true] when it
    reaches a condition that is not true and whose fatal flag is [fatal],
    [Some false] when it runs to the end, [None] when it dereferences a nil
    condition on the way. *)
Fixpoint rangeFailed (fatal : bool) (l : list gradatedCondition) : option bool :=
  match l with
  | [] => Some false
  | gc :: rest =>
      match condition gc with
      | None => None
      | Some c =>
          if bool_decide (Status c ≠ ConditionTrue)
             && (if fatal then isFatal gc else negb (isFatal gc))
          then Some true
          else rangeFailed fatal rest
      end
  end.

(** [EvaluateConditions] reads the configuration and returns the provider
    (nil: [None]) and the requeue flag; the outer [None] is a panic. *)
Definition EvaluateConditions (conditions : GradatedConditions) (config : ProviderConfig)
    : option (option Provider * bool) :=
  match rangeFailed true (gradatedConditions conditions) with
  | None => None
  | Some true =>
      (* Invalid provider, so do not load it into the cache. *)
      Some (None, true)
  | Some false =>
      match rangeFailed false (gradatedConditions conditions) with
      | None => None
      | Some true =>
          (* Error but load it into the cache anyway. *)
          Some (Some (New config), true)
      | Some false =>
          (* Fully validated provider, so load it into the cache. *)
          Some (Some (New config), false)
      end
  end.

(* ------------------------------------------------------------------ *)
(** ** Predicates of the statements *)

(** A condition that is present and whose status is not True: the
    boolean-like status counts as false whenever it is not True. *)
Definition failed (gc : gradatedCondition) : Prop :=
  ∃ c, condition gc = Some c ∧ Status c ≠ ConditionTrue.

Definition holds (gc : gradatedCondition) : Prop :=
  ∃ c, condition gc = Some c ∧ Status c = ConditionTrue.

(** No entry of the list carries a nil condition. *)
Definition nonNil (l : list gradatedCondition) : Prop :=
  Forall (λ gc, is_Some (condition gc)) l.

(* ------------------------------------------------------------------ *)
(** ** Fixtures *)

(** A configuration, a state and a world to run the code in. *)
Module Fixture.

Definition config0 (host : string) : ProviderConfig :=
  mkProviderConfig "idp1" host TLS None "cn=admin,dc=example" "hunter2"
    (mkUserSearch "ou=users,dc=example" "" "cn" "uidNumber")
    (mkGroupSearch "ou=groups,dc=example" "" "cn").

Definition st0 (host : string) : St := mkSt (config0 host) ∅ [].

(** A server reached on its TLS port answers every dial; one reached on
    its StartTLS port answers StartTLS only; any other host is down. *)
Definition dial (_ : list Event) (p : Provider) : option string :=
  let c := provider_config p in
  if bool_decide (Host c = "ldaps.example")
  then None
  else if bool_decide (Host c = "starttls.example")
  then match ConnectionProtocol c with
       | TLS => Some "tls: first record does not look like a TLS handshake"
       | StartTLS => None
       end
  else match ConnectionProtocol c with
       | TLS => Some "dial tcp: connection refused"
       | StartTLS => Some "dial tcp: no route to host"
       end.

Definition pem : list byte := [x2d; x2d; x2d; x2d; x2d].

Definition decode (s : string) : string + list byte :=
  if bool_decide (s = "LS0tLS0=") then inr pem
  else if bool_decide (s = "aGVsbG8=") then inr [x68; x65; x6c; x6c; x6f]
  else inl "illegal base64 data at input byte 0".

Definition env : Env :=
  mkEnv decode (λ b, match b with x2d :: _ => true | _ => false end)
    (λ s, dq +++ s +++ dq) dial.

Definition good : Condition := mkCondition "A" ConditionTrue "Success" "ok".
Definition bad : Condition := mkCondition "B" ConditionFalse "Failure" "not ok".

(** An upstream whose resolver has nothing to do (plain LDAP). *)
Definition upstream : UpstreamGenericLDAPIDP :=
  mkUpstream "idp1" "ns" 5 "ldaps.example" None "bind-secret" (λ _ c, (None, c)).

(** An entry as a successful pass writes it. *)
Definition settings : ValidatedSettings :=
  mkValidatedSettings 5 "4242" StartTLS "ou=users,dc=example" "ou=groups,dc=example"
    (Some (mkCondition typeLDAPConnectionValid ConditionTrue ReasonSuccess "connected"))
    None.

(** A lister that holds no secret at all. *)
Definition noSecrets : SecretInformer :=
  λ _ name, inl (ErrSecretNotFound ("secret " +++ name +++ " not found")).


(** A lister holding a complete basic-auth secret at version 4242. *)
Definition oneSecret : SecretInformer :=
  λ _ _, inr (mkSecret SecretTypeBasicAuth "4242"
                {[ "username" := [x61]; "password" := [x62] ]}).

End Fixture.

(** The events a run appended to the trace. *)
Definition newEvents (before after : St) : list Event :=
  drop (length (trace before)) (trace after).

(** What the orchestrator appends after the two validators. *)
Definition probed (r : option Condition * option Condition) : list gradatedCondition :=
  mkGradated r.1 false
  :: match r.2 with
     | Some c => [mkGradated (Some c) true]
     | None => []
     end.

(** Every cached entry carries a connection condition of the type this
    package gives it. *)
Definition cacheWellFormed (m : gmap string ValidatedSettings) : Prop :=
  ∀ n v, m !! n = Some v →
         ∃ c, ConnectionValidCondition v = Some c
              ∧ Type_ c = typeLDAPConnectionValid.



(** Unfolds the state monad down to functions on states. *)
Ltac unfold_m :=
  unfold mbind, M_bind, mret, M_ret, getConfig, modifyConfig, cacheGet, cacheSet in *.

(* ------------------------------------------------------------------ *)
(** * Properties *)

(** ** The settings cache *)

Section CacheFacts.

Implicit Types (s : gmap string ValidatedSettings) (ops : list Op).

Lemma run_lookup ops : ∀ s name,
  run ops s !! name = lastSet name ops (s !! name).
Proof.
  induction ops as [|o ops IH]; intros s name; [reflexivity|].
  unfold run in *. cbn [foldl lastSet]. rewrite IH.
  destruct o as [n v|n r g]; cbn [step]; [|reflexivity].
  unfold Set_. rewrite lookup_insert.
  destruct (decide (n = name)) as [->|Hne].
  - rewrite bool_decide_eq_true_2 by reflexivity. reflexivity.
  - rewrite bool_decide_eq_false_2 by assumption. reflexivity.
Qed.

Lemma Get_hit s name rv gen v :
  Get s name rv gen = (v, true) ↔
  s !! name = Some v ∧ BindSecretResourceVersion v = rv ∧ IDPSpecGeneration v = gen.
Proof.
  unfold Get. destruct (s !! name) as [w|] eqn:E.
  - destruct (bool_decide (BindSecretResourceVersion w = rv)) eqn:E1;
    destruct (bool_decide (IDPSpecGeneration w = gen)) eqn:E2; cbn [andb];
      try apply bool_decide_eq_true_1 in E1;
      try apply bool_decide_eq_true_1 in E2;
      try apply bool_decide_eq_false_1 in E1;
      try apply bool_decide_eq_false_1 in E2;
      split; intros H; try discriminate H.
    all: try (injection H as <-; auto).
    all: destruct H as (H & H1 & H2); injection H as <-; try contradiction.
    reflexivity.
  - split; [intros H; discriminate H|intros [H _]; discriminate H].
Qed.

Lemma Get_miss s name rv gen :
  (∀ v, s !! name = Some v →
        ¬ (BindSecretResourceVersion v = rv ∧ IDPSpecGeneration v = gen)) →
  Get s name rv gen = (zeroValidatedSettings, false).
Proof.
  intros H. unfold Get. destruct (s !! name) as [w|] eqn:E; [|reflexivity].
  specialize (H w eq_refl).
  destruct (bool_decide (BindSecretResourceVersion w = rv)) eqn:E1;
  destruct (bool_decide (IDPSpecGeneration w = gen)) eqn:E2; cbn [andb];
    try reflexivity.
  apply bool_decide_eq_true_1 in E1. apply bool_decide_eq_true_1 in E2.
  exfalso. apply H. split; assumption.
Qed.

End CacheFacts.

(** C3. After any sequence of Set/Get operations on a new cache,
    [Get name secretVersion generation] is a hit returning [v] exactly
    when [v] is the entry most recently stored under [name] by a Set and
    [v]'s bind-secret resource version and spec generation equal the ones
    asked for; when no entry was stored under [name], or either field of
    the latest one differs, Get returns the zero settings and false. *)
Theorem C3_cache_exactness (ops : list Op) (name secretVersion : string) (generation : Z) :
  let s := run ops NewValidatedSettingsCache in
  (∀ v, Get s name secretVersion generation = (v, true) ↔
        lastSet name ops None = Some v
        ∧ BindSecretResourceVersion v = secretVersion
        ∧ IDPSpecGeneration v = generation)
  ∧ ((lastSet name ops None = None
      ∨ (∃ v, lastSet name ops None = Some v
              ∧ (BindSecretResourceVersion v ≠ secretVersion
                 ∨ IDPSpecGeneration v ≠ generation))) ↔
     Get s name secretVersion generation = (zeroValidatedSettings, false)).
Proof.
  intros s.
  assert (Hs : s !! name = lastSet name ops None).
  { unfold s. rewrite run_lookup. unfold NewValidatedSettingsCache.
    rewrite lookup_empty. reflexivity. }
  split.
  - intros v. rewrite Get_hit, Hs. reflexivity.
  - split.
    + intros H. apply Get_miss. intros v Hv [H1 H2]. rewrite Hs in Hv.
      destruct H as [H|(w & Hw & H)]; [congruence|].
      assert (w = v) by congruence. subst w. destruct H; contradiction.
    + intros H. destruct (lastSet name ops None) as [w|] eqn:E; [|left; reflexivity].
      right. exists w. split; [reflexivity|].
      destruct (decide (BindSecretResourceVersion w = secretVersion)) as [E1|]; [|left; assumption].
      destruct (decide (IDPSpecGeneration w = generation)) as [E2|]; [|right; assumption].
      exfalso.
      assert (Hh : Get s name secretVersion generation = (w, true)).
      { apply Get_hit. rewrite Hs. auto. }
      rewrite Hh in H. discriminate H.
Qed.

(** The example of the spec: after Set("idp1", gen=5, secret="v1"),
    Get("idp1","v1",5) hits, Get("idp1","v2",5) and Get("idp1","v1",6)
    miss, and so does a Get under another name. *)
Example cache_exactness_example :
  let v := mkValidatedSettings 5 "v1" TLS "ou=users" "ou=groups" None None in
  let s := run [OpSet "idp1" v] NewValidatedSettingsCache in
  Get s "idp1" "v1" 5 = (v, true)
  ∧ Get s "idp1" "v2" 5 = (zeroValidatedSettings, false)
  ∧ Get s "idp1" "v1" 6 = (zeroValidatedSettings, false)
  ∧ Get s "idp2" "v1" 5 = (zeroValidatedSettings, false).
Proof. repeat split. Qed.

(** A later Set under the same name replaces the entry as a whole. *)
Example cache_overwrite_example :
  let v1 := mkValidatedSettings 5 "v1" TLS "ou=users" "ou=groups" None None in
  let v2 := mkValidatedSettings 6 "v1" StartTLS "" "" None None in
  let s := run [OpSet "idp1" v1; OpGet "idp1" "v1" 5; OpSet "idp1" v2]
             NewValidatedSettingsCache in
  Get s "idp1" "v1" 5 = (zeroValidatedSettings, false)
  ∧ Get s "idp1" "v1" 6 = (v2, true).
Proof. repeat split. Qed.

(* ------------------------------------------------------------------ *)
(** ** The publication decision *)

Section RangeFailed.

Implicit Types (l : list gradatedCondition) (gc : gradatedCondition).

Lemma flag_matches (fatal : bool) gc :
  (if fatal then isFatal gc else negb (isFatal gc)) = true ↔ isFatal gc = fatal.
Proof. destruct fatal, (isFatal gc); cbn; split; congruence. Qed.

Lemma rangeFailed_some fatal l :
  nonNil l →
  (∃ gc, gc ∈ l ∧ isFatal gc = fatal ∧ failed gc) →
  rangeFailed fatal l = Some true.
Proof.
  induction l as [|g l IH]; intros Hnn (gc & Hin & Hf & Hfail).
  - apply elem_of_nil in Hin. contradiction.
  - apply Forall_cons in Hnn as [[c Hc] Hnn]. cbn [rangeFailed]. rewrite Hc.
    destruct (bool_decide (Status c ≠ ConditionTrue)
              && (if fatal then isFatal g else negb (isFatal g))) eqn:E;
      [reflexivity|].
    apply IH; [assumption|]. exists gc.
    apply elem_of_cons in Hin as [->|Hin]; [|auto].
    exfalso. destruct Hfail as (c' & Hc' & Hst).
    assert (c' = c) by congruence. subst c'.
    apply andb_false_iff in E as [E|E].
    + apply bool_decide_eq_false_1 in E. contradiction.
    + apply flag_matches in Hf. congruence.
Qed.

Lemma rangeFailed_none fatal l :
  nonNil l →
  (∀ gc, gc ∈ l → isFatal gc = fatal → ¬ failed gc) →
  rangeFailed fatal l = Some false.
Proof.
  induction l as [|g l IH]; intros Hnn Hall; [reflexivity|].
  apply Forall_cons in Hnn as [[c Hc] Hnn]. cbn [rangeFailed]. rewrite Hc.
  destruct (bool_decide (Status c ≠ ConditionTrue)
            && (if fatal then isFatal g else negb (isFatal g))) eqn:E.
  - exfalso. apply andb_true_iff in E as [E1 E2].
    apply bool_decide_eq_true_1 in E1. apply flag_matches in E2.
    apply (Hall g); [apply elem_of_cons; auto|assumption|].
    exists c. auto.
  - apply IH; [assumption|]. intros gc Hin. apply Hall.
    apply elem_of_cons. auto.
Qed.

Lemma holds_not_failed gc : holds gc → ¬ failed gc.
Proof.
  intros (c & Hc & Hst) (c' & Hc' & Hst').
  assert (c' = c) by congruence. subst c'. contradiction.
Qed.

Lemma all_hold_nonNil l : (∀ gc, gc ∈ l → holds gc) → nonNil l.
Proof.
  intros H. apply Forall_forall. intros gc Hin.
  destruct (H gc Hin) as (c & Hc & _). exists c. assumption.
Qed.

End RangeFailed.

(** C1. For a list of gradated conditions none of which is nil and any
    configuration: (a) when some fatal condition is not true, the result is
    no provider and retry; (b) otherwise, when some non-fatal condition is
    not true, the result is a provider made from the configuration and
    retry; (c) when every condition is true, the result is a provider made
    from the configuration and no retry. *)
Theorem C1_publication_tiers (l : list gradatedCondition) (cfg : ProviderConfig)
    (Hnn : nonNil l) :
  ((∃ gc, gc ∈ l ∧ isFatal gc = true ∧ failed gc) →
   EvaluateConditions (mkGradatedConditions l) cfg = Some (None, true))
  ∧ (¬ (∃ gc, gc ∈ l ∧ isFatal gc = true ∧ failed gc) →
     (∃ gc, gc ∈ l ∧ isFatal gc = false ∧ failed gc) →
     EvaluateConditions (mkGradatedConditions l) cfg = Some (Some (New cfg), true))
  ∧ ((∀ gc, gc ∈ l → holds gc) →
     EvaluateConditions (mkGradatedConditions l) cfg = Some (Some (New cfg), false)).
Proof.
  unfold EvaluateConditions. cbn [gradatedConditions].
  split; [|split].
  - intros H. rewrite (rangeFailed_some true l Hnn H). reflexivity.
  - intros Hno H.
    rewrite (rangeFailed_none true l Hnn), (rangeFailed_some false l Hnn H);
      [reflexivity|].
    intros gc Hin Hf Hfail. apply Hno. exists gc. auto.
  - intros H.
    rewrite (rangeFailed_none true l Hnn), (rangeFailed_none false l Hnn);
      [reflexivity| |]; intros gc Hin _; apply holds_not_failed, H, Hin.
Qed.

Lemma C1_publication_tiers_witness :
  let l := [mkGradated (Some Fixture.good) true; mkGradated (Some Fixture.bad) false] in
  nonNil l
  ∧ EvaluateConditions (mkGradatedConditions l) (Fixture.config0 "ldaps.example")
    = Some (Some (New (Fixture.config0 "ldaps.example")), true).
Proof.
  intros l.
  assert (Hnn : nonNil l).
  { repeat constructor; eexists; reflexivity. }
  split; [exact Hnn|].
  apply (C1_publication_tiers l (Fixture.config0 "ldaps.example") Hnn).
  - intros (gc & Hin & Hf & (c & Hc & Hst)).
    apply elem_of_cons in Hin as [->|Hin].
    + cbn in Hc. injection Hc as <-. apply Hst. reflexivity.
    + apply list_elem_of_singleton in Hin as ->. discriminate Hf.
  - exists (mkGradated (Some Fixture.bad) false).
    split; [apply elem_of_cons; right; apply list_elem_of_singleton; reflexivity|].
    split; [reflexivity|]. exists Fixture.bad. split; [reflexivity|discriminate].
Defined.

(** C10. For an empty list of gradated conditions the result is a provider
    made from the given configuration and no retry. *)
Theorem C10_empty_conditions_publish_clean (cfg : ProviderConfig) :
  EvaluateConditions (mkGradatedConditions []) cfg = Some (Some (New cfg), false).
Proof. reflexivity. Qed.

(* ------------------------------------------------------------------ *)
(** ** Messages *)

Section ContainsFacts.

Implicit Types (s p t e : string).

Lemma append_cons a s t : String a s +++ t = String a (s +++ t).
Proof. reflexivity. Qed.

Lemma append_empty_r s : s +++ "" = s.
Proof.
  induction s as [|a s IH]; [reflexivity|].
  rewrite append_cons, IH. reflexivity.
Qed.

Lemma append_assoc_r p t e : (p +++ t) +++ e = p +++ (t +++ e).
Proof.
  induction p as [|a p IH]; [reflexivity|].
  rewrite !append_cons, IH. reflexivity.
Qed.

Lemma Contains_self e : Contains e e.
Proof.
  exists "", "". rewrite append_empty_r. reflexivity.
Qed.

Lemma Contains_app_r p t e : Contains t e → Contains (p +++ t) e.
Proof.
  intros (a & b & ->). exists (p +++ a), b. rewrite append_assoc_r. reflexivity.
Qed.

End ContainsFacts.

(* ------------------------------------------------------------------ *)
(** ** The TLS validator *)

(** C9. [ValidateTLSConfig]: a nil TLS spec gives the true condition with
    message "no TLS configuration provided" and changes nothing; a spec
    with empty CA data gives the true condition with message "loaded TLS
    configuration" and changes nothing; CA data that does not decode gives
    a false condition with reason InvalidTLSConfig whose message contains
    the decoder's error; decoded data from which no certificate can be
    appended gives a false condition with reason InvalidTLSConfig whose
    message contains "no certificates found"; otherwise the CA bundle of
    the configuration becomes the decoded bytes and the true condition with
    message "loaded TLS configuration" is returned. *)
Theorem C9_ValidateTLSConfig_cases (env : Env) (tlsSpec : option TLSSpec) (s : St) :
  let r := ValidateTLSConfig env tlsSpec s in
  (tlsSpec = None →
   r = (mkCondition typeTLSConfigurationValid ConditionTrue ReasonSuccess
          "no TLS configuration provided", s))
  ∧ (∀ spec, tlsSpec = Some spec → CertificateAuthorityData spec = "" →
     r = (mkCondition typeTLSConfigurationValid ConditionTrue ReasonSuccess
            "loaded TLS configuration", s))
  ∧ (∀ spec err, tlsSpec = Some spec → CertificateAuthorityData spec ≠ "" →
     base64_DecodeString env (CertificateAuthorityData spec) = inl err →
     Type_ r.1 = typeTLSConfigurationValid ∧ Status r.1 = ConditionFalse
     ∧ Reason r.1 = "InvalidTLSConfig" ∧ Contains (Message r.1) err ∧ r.2 = s)
  ∧ (∀ spec bundle, tlsSpec = Some spec → CertificateAuthorityData spec ≠ "" →
     base64_DecodeString env (CertificateAuthorityData spec) = inr bundle →
     x509_AppendCertsFromPEM env bundle = false →
     Type_ r.1 = typeTLSConfigurationValid ∧ Status r.1 = ConditionFalse
     ∧ Reason r.1 = "InvalidTLSConfig"
     ∧ Contains (Message r.1) "no certificates found" ∧ r.2 = s)
  ∧ (∀ spec bundle, tlsSpec = Some spec → CertificateAuthorityData spec ≠ "" →
     base64_DecodeString env (CertificateAuthorityData spec) = inr bundle →
     x509_AppendCertsFromPEM env bundle = true →
     r.1 = mkCondition typeTLSConfigurationValid ConditionTrue ReasonSuccess
             "loaded TLS configuration"
     ∧ CABundle (config r.2) = Some bundle
     ∧ config r.2 = set_CABundle (Some bundle) (config s)
     ∧ cache r.2 = cache s ∧ trace r.2 = trace s).
Proof.
  intros r. subst r. unfold ValidateTLSConfig.
  assert (Hlen : ∀ x : string, x ≠ "" → (String.length x =? 0)%nat = false).
  { intros [|a x] Hx; [contradiction|reflexivity]. }
  split; [|split; [|split; [|split]]].
  - intros ->. reflexivity.
  - intros spec -> E. rewrite E. reflexivity.
  - intros spec err -> Hne Hdec. rewrite (Hlen _ Hne), Hdec.
    repeat split. apply Contains_app_r, Contains_self.
  - intros spec bundle -> Hne Hdec Hpem. rewrite (Hlen _ Hne), Hdec, Hpem.
    repeat split. apply Contains_app_r, Contains_self.
  - intros spec bundle -> Hne Hdec Hpem. rewrite (Hlen _ Hne), Hdec, Hpem.
    repeat split.
Qed.

Lemma C9_ValidateTLSConfig_cases_witness :
  let spec := mkTLSSpec "LS0tLS0=" in
  let r := ValidateTLSConfig Fixture.env (Some spec) (Fixture.st0 "ldaps.example") in
  (CertificateAuthorityData spec ≠ ""
   ∧ base64_DecodeString Fixture.env (CertificateAuthorityData spec) = inr Fixture.pem
   ∧ x509_AppendCertsFromPEM Fixture.env Fixture.pem = true)
  ∧ Status r.1 = ConditionTrue
  ∧ CABundle (config r.2) = Some Fixture.pem.
Proof.
  intros spec r.
  assert (H1 : CertificateAuthorityData spec ≠ "") by discriminate.
  assert (H2 : base64_DecodeString Fixture.env (CertificateAuthorityData spec)
               = inr Fixture.pem) by reflexivity.
  assert (H3 : x509_AppendCertsFromPEM Fixture.env Fixture.pem = true) by reflexivity.
  split; [auto|].
  destruct (C9_ValidateTLSConfig_cases Fixture.env (Some spec)
              (Fixture.st0 "ldaps.example")) as (_ & _ & _ & _ & H).
  destruct (H spec Fixture.pem eq_refl H1 H2 H3) as (Hc & Hb & _).
  split; [|exact Hb]. fold r in Hc. rewrite Hc. reflexivity.
Defined.

(* ------------------------------------------------------------------ *)
(** ** The connection probe *)

(** C2. [TestConnection] tries TLS first.  When that attempt succeeds it
    is the only attempt (no StartTLS attempt is made), the configuration
    is left on TLS and the condition is true.  When it fails and the
    StartTLS attempt succeeds, the configuration is left on StartTLS and
    the condition is true.  When both fail, the configuration is put back
    on TLS and the condition is false, with reason LDAPConnectionError and
    a message containing the error text of the TLS attempt.  The condition
    is of type LDAPConnectionValid and the cache is not touched. *)
Theorem C2_tls_starttls_fallback (env : Env) (bindSecretName currentSecretVersion : string)
    (s : St) :
  let tlsConfig := set_ConnectionProtocol TLS (config s) in
  let startTLSConfig := set_ConnectionProtocol StartTLS (config s) in
  let tlsErr := provider_TestConnection env (trace s) (New tlsConfig) in
  let startTLSErr :=
    provider_TestConnection env (trace s ++ [EvTestConnection (New tlsConfig)])
      (New startTLSConfig) in
  let r := TestConnection env bindSecretName currentSecretVersion s in
  Type_ r.1 = typeLDAPConnectionValid
  ∧ cache r.2 = cache s
  ∧ (tlsErr = None →
     newEvents s r.2 = [EvTestConnection (New tlsConfig)]
     ∧ existsb isStartTLSAttempt (newEvents s r.2) = false
     ∧ config r.2 = tlsConfig
     ∧ ConnectionProtocol (config r.2) = TLS
     ∧ Status r.1 = ConditionTrue)
  ∧ (∀ e, tlsErr = Some e → startTLSErr = None →
     newEvents s r.2 = [EvTestConnection (New tlsConfig);
                        EvTestConnection (New startTLSConfig)]
     ∧ config r.2 = startTLSConfig
     ∧ ConnectionProtocol (config r.2) = StartTLS
     ∧ Status r.1 = ConditionTrue)
  ∧ (∀ e e', tlsErr = Some e → startTLSErr = Some e' →
     newEvents s r.2 = [EvTestConnection (New tlsConfig);
                        EvTestConnection (New startTLSConfig)]
     ∧ config r.2 = tlsConfig
     ∧ ConnectionProtocol (config r.2) = TLS
     ∧ Status r.1 = ConditionFalse
     ∧ Reason r.1 = "LDAPConnectionError"
     ∧ Contains (Message r.1) e).
Proof.
  intros tlsConfig startTLSConfig tlsErr startTLSErr r.
  subst r. unfold TestConnection, testConnection, newEvents. unfold_m.
  cbn [config cache trace]. fold tlsConfig. fold tlsErr.
  destruct tlsErr as [e|] eqn:E1.
  - cbn [config cache trace].
    change (set_ConnectionProtocol StartTLS tlsConfig) with startTLSConfig.
    fold startTLSErr.
    destruct startTLSErr as [e'|] eqn:E2; cbn [config cache trace fst snd].
    + split; [reflexivity|]. split; [reflexivity|].
      split; [intros H; discriminate H|].
      split; [intros ? _ H; discriminate H|].
      intros e0 e0' [= <-] _.
      rewrite <- app_assoc, drop_app_length.
      repeat split.
      repeat apply Contains_app_r. apply Contains_self.
    + split; [reflexivity|]. split; [reflexivity|].
      split; [intros H; discriminate H|].
      split; [|intros ? ? _ H; discriminate H].
      intros e0 _ _. rewrite <- app_assoc, drop_app_length.
      repeat split.
  - cbn [config cache trace fst snd].
    split; [reflexivity|]. split; [reflexivity|].
    split; [|split; intros; discriminate].
    intros _. rewrite drop_app_length. repeat split.
Qed.

Lemma C2_tls_starttls_fallback_witness :
  let r1 := TestConnection Fixture.env "bind-secret" "4242" (Fixture.st0 "starttls.example") in
  let r2 := TestConnection Fixture.env "bind-secret" "4242" (Fixture.st0 "down.example") in
  (ConnectionProtocol (config r1.2) = StartTLS ∧ Status r1.1 = ConditionTrue)
  ∧ (ConnectionProtocol (config r2.2) = TLS ∧ Status r2.1 = ConditionFalse
     ∧ Contains (Message r2.1) "dial tcp: connection refused").
Proof.
  intros r1 r2. split.
  - destruct (C2_tls_starttls_fallback Fixture.env "bind-secret" "4242"
                (Fixture.st0 "starttls.example")) as (_ & _ & _ & H & _).
    destruct (H "tls: first record does not look like a TLS handshake"
                eq_refl eq_refl) as (_ & _ & Hp & Hs).
    split; assumption.
  - destruct (C2_tls_starttls_fallback Fixture.env "bind-secret" "4242"
                (Fixture.st0 "down.example")) as (_ & _ & _ & _ & H).
    destruct (H "dial tcp: connection refused" "dial tcp: no route to host"
                eq_refl eq_refl) as (_ & _ & Hp & Hs & _ & Hm).
    repeat split; assumption.
Defined.

(** A host that is down: two attempts, the configuration back on TLS, and
    the message built from host, bind user and the TLS attempt's error. *)
Example probe_of_a_host_that_is_down :
  let r := TestConnection Fixture.env "bind-secret" "4242" (Fixture.st0 "down.example") in
  r.1 = mkCondition "LDAPConnectionValid" ConditionFalse "LDAPConnectionError"
          ("could not successfully connect to " +++ dq +++ "down.example" +++ dq
           +++ " and bind as user " +++ dq +++ "cn=admin,dc=example" +++ dq
           +++ ": dial tcp: connection refused")
  ∧ ConnectionProtocol (config r.2) = TLS
  ∧ map isStartTLSAttempt (trace r.2) = [false; true].
Proof. repeat split. Qed.

(** A nil condition in the list makes [EvaluateConditions] panic. *)
Example nil_condition_panics :
  EvaluateConditions (mkGradatedConditions [mkGradated None false])
    (Fixture.config0 "ldaps.example") = None.
Proof. reflexivity. Qed.

Section ProbeFacts.

Variable env : Env.
Implicit Types (s : St) (n v : string).

Lemma DeepCopy_same (c : option Condition) : DeepCopy c = c.
Proof. destruct c as [[]|]; reflexivity. Qed.

Lemma TestConnection_cache n v s : cache (TestConnection env n v s).2 = cache s.
Proof.
  unfold TestConnection, testConnection. unfold_m. cbn [config cache trace].
  destruct (provider_TestConnection env (trace s) _) as [e|];
    cbn [config cache trace]; [|reflexivity].
  destruct (provider_TestConnection env _ _) as [e'|]; reflexivity.
Qed.

(** A probe makes one or two connection attempts and nothing else on the
    network. *)
Lemma TestConnection_trace n v s :
  ∃ probes : list Event,
    trace (TestConnection env n v s).2 = (trace s ++ probes)%list
    ∧ probes ≠ [] ∧ forallb isTestConnection probes = true.
Proof.
  unfold TestConnection, testConnection. unfold_m. cbn [config cache trace].
  destruct (provider_TestConnection env (trace s) _) as [e|];
    cbn [config cache trace].
  - destruct (provider_TestConnection env _ _) as [e'|];
      cbn [config cache trace snd]; rewrite <- app_assoc;
      eexists; (split; [reflexivity|]); split; (discriminate || reflexivity).
  - eexists. split; [reflexivity|]. split; [discriminate|reflexivity].
Qed.

Lemma TestConnection_Type n v s :
  Type_ (TestConnection env n v s).1 = typeLDAPConnectionValid.
Proof.
  unfold TestConnection, testConnection. unfold_m. cbn [config cache trace].
  destruct (provider_TestConnection env (trace s) _) as [e|];
    cbn [config cache trace]; [|reflexivity].
  destruct (provider_TestConnection env _ _) as [e'|]; reflexivity.
Qed.

(** The two ways through the cache-aware step, as equations. *)
Lemma connectivity_reuse (upstream : UpstreamGenericLDAPIDP) v s vs :
  Get (cache s) (idp_Name upstream) v (idp_Generation upstream) = (vs, true) →
  UserSearchBase vs ≠ "" → GroupSearchBase vs ≠ "" →
  validateAndSetLDAPServerConnectivityAndSearchBase env upstream v s
  = ((ConnectionValidCondition vs, SearchBaseFoundCondition vs),
     mkSt (set_GroupSearchBase (GroupSearchBase vs)
             (set_UserSearchBase (UserSearchBase vs)
                (set_ConnectionProtocol (LDAPConnectionProtocol_ vs) (config s))))
          (cache s) (trace s)).
Proof.
  intros Hget Hu Hg. unfold validateAndSetLDAPServerConnectivityAndSearchBase.
  unfold_m. rewrite Hget. cbn [andb].
  rewrite !bool_decide_eq_true_2 by assumption. cbn [andb config cache trace].
  rewrite !DeepCopy_same. reflexivity.
Qed.

Lemma connectivity_probe (upstream : UpstreamGenericLDAPIDP) v s :
  let hit := Get (cache s) (idp_Name upstream) v (idp_Generation upstream) in
  hit.2 = false ∨ UserSearchBase hit.1 = "" ∨ GroupSearchBase hit.1 = "" →
  let p := TestConnection env (spec_BindSecretName upstream) v s in
  let d := spec_DetectAndSetSearchBase upstream (trace p.2) (config p.2) in
  validateAndSetLDAPServerConnectivityAndSearchBase env upstream v s
  = ((Some p.1, d.1),
     mkSt d.2
       (if noFailures p.1 d.1
        then <[idp_Name upstream :=
                 mkValidatedSettings (idp_Generation upstream) v
                   (ConnectionProtocol d.2) (us_Base (UserSearch d.2))
                   (gs_Base (GroupSearch d.2)) (Some p.1) d.1]> (cache s)
        else cache s)
       (trace p.2 ++ [EvDetectAndSetSearchBase (config p.2)])).
Proof.
  intros hit Hmiss p d.
  unfold validateAndSetLDAPServerConnectivityAndSearchBase. unfold_m.
  fold hit. destruct hit as [vs b] eqn:Eh. cbn [fst snd] in Hmiss.
  assert (Hguard : b && bool_decide (UserSearchBase vs ≠ "")
                   && bool_decide (GroupSearchBase vs ≠ "") = false).
  { destruct Hmiss as [->|[Hu|Hg]]; [reflexivity| |].
    - rewrite (bool_decide_eq_false_2 (UserSearchBase vs ≠ "")) by auto.
      rewrite andb_false_r. reflexivity.
    - rewrite (bool_decide_eq_false_2 (GroupSearchBase vs ≠ "")) by auto.
      rewrite andb_false_r. reflexivity. }
  rewrite Hguard. fold p.
  pose proof (TestConnection_cache (spec_BindSecretName upstream) v s) as Hc.
  fold p in Hc.
  destruct p as [conn s1] eqn:Ep. cbn [fst snd] in *.
  unfold detectAndSetSearchBase. fold d.
  destruct d as [sb config'] eqn:Ed. cbn [fst snd].
  destruct (noFailures conn sb); cbn [config cache trace]; unfold Set_;
    rewrite ?DeepCopy_same, ?Hc; destruct conn; reflexivity.
Qed.

End ProbeFacts.

(* ------------------------------------------------------------------ *)
(** ** The cache-aware connectivity step *)

(** C4. In the cache-aware connectivity step, when the lookup hits and the
    cached user and group search bases are both non-empty, the cached
    protocol and search bases are written into the configuration, the two
    cached conditions are returned as copies, and nothing happens on the
    network (nor to the cache).  In every other case (a miss, or a hit with
    an empty user or group search base) the connection probe runs, then the
    search-base resolver runs, whatever the outcome of the probe: the trace
    grows by the probe's connection attempts followed by one resolver
    query, and the results are the probe's condition and the resolver's. *)
Theorem C4_reuse_or_probe (env : Env) (upstream : UpstreamGenericLDAPIDP)
    (currentSecretVersion : string) (s : St) :
  let hit := Get (cache s) (idp_Name upstream) currentSecretVersion
               (idp_Generation upstream) in
  let r := validateAndSetLDAPServerConnectivityAndSearchBase env upstream
             currentSecretVersion s in
  (hit.2 = true → UserSearchBase hit.1 ≠ "" → GroupSearchBase hit.1 ≠ "" →
   r.1 = (DeepCopy (ConnectionValidCondition hit.1),
          DeepCopy (SearchBaseFoundCondition hit.1))
   ∧ r.1 = (ConnectionValidCondition hit.1, SearchBaseFoundCondition hit.1)
   ∧ ConnectionProtocol (config r.2) = LDAPConnectionProtocol_ hit.1
   ∧ us_Base (UserSearch (config r.2)) = UserSearchBase hit.1
   ∧ gs_Base (GroupSearch (config r.2)) = GroupSearchBase hit.1
   ∧ newEvents s r.2 = []
   ∧ trace r.2 = trace s
   ∧ cache r.2 = cache s)
  ∧ (hit.2 = false ∨ UserSearchBase hit.1 = "" ∨ GroupSearchBase hit.1 = "" →
     let p := TestConnection env (spec_BindSecretName upstream)
                currentSecretVersion s in
     let d := spec_DetectAndSetSearchBase upstream (trace p.2) (config p.2) in
     r.1 = (Some p.1, d.1)
     ∧ config r.2 = d.2
     ∧ ∃ probes : list Event,
         probes ≠ [] ∧ forallb isTestConnection probes = true
         ∧ trace p.2 = (trace s ++ probes)%list
         ∧ newEvents s r.2
           = (probes ++ [EvDetectAndSetSearchBase (config p.2)])%list).
Proof.
  intros hit r. split.
  - intros Hhit Hu Hg.
    assert (Hget : Get (cache s) (idp_Name upstream) currentSecretVersion
                     (idp_Generation upstream) = (hit.1, true)).
    { fold hit. rewrite <- Hhit. destruct hit; reflexivity. }
    subst r. rewrite (connectivity_reuse env upstream _ s hit.1 Hget Hu Hg).
    cbn [fst snd config cache trace]. rewrite !DeepCopy_same.
    unfold newEvents. cbn [trace]. rewrite drop_all. repeat split.
  - intros Hmiss p d. subst r.
    rewrite (connectivity_probe env upstream _ s Hmiss). fold p. fold d.
    cbn [fst snd config cache trace].
    split; [reflexivity|]. split; [reflexivity|].
    destruct (TestConnection_trace env (spec_BindSecretName upstream)
                currentSecretVersion s) as (probes & Ht & Hne & Hall).
    fold p in Ht. exists probes. repeat split; try assumption.
    unfold newEvents. cbn [trace]. rewrite Ht, <- app_assoc, drop_app_length.
    reflexivity.
Qed.

Lemma C4_reuse_or_probe_witness :
  let s := mkSt (Fixture.config0 "down.example") {["idp1" := Fixture.settings]} [] in
  let r := validateAndSetLDAPServerConnectivityAndSearchBase Fixture.env
             Fixture.upstream "4242" s in
  ConnectionProtocol (config r.2) = StartTLS ∧ trace r.2 = [].
Proof.
  intros s r.
  destruct (C4_reuse_or_probe Fixture.env Fixture.upstream "4242" s) as [H _].
  destruct H as (_ & _ & Hp & _ & _ & _ & Ht & _);
    [reflexivity|discriminate|discriminate|].
  split; assumption.
Defined.

(** C5. On the probing path of the cache-aware step, let the connection
    condition be the one [TestConnection] returns and the search-base
    condition the one the upstream's resolver returns on the state the
    probe left.  The cache is written exactly when the connection
    condition is true and the search-base condition is nil or true.  The
    write replaces the entry under the upstream's name, as a whole, by one
    holding the generation, the secret version, the final protocol and
    search bases of the configuration, and copies of both conditions.  On
    any other outcome the cache is as it was. *)
Theorem C5_cache_written_only_on_success (env : Env) (upstream : UpstreamGenericLDAPIDP)
    (currentSecretVersion : string) (s : St)
    (Hprobe :
       let hit := Get (cache s) (idp_Name upstream) currentSecretVersion
                    (idp_Generation upstream) in
       hit.2 = false ∨ UserSearchBase hit.1 = "" ∨ GroupSearchBase hit.1 = "") :
  let p := TestConnection env (spec_BindSecretName upstream) currentSecretVersion s in
  let d := spec_DetectAndSetSearchBase upstream (trace p.2) (config p.2) in
  let r := validateAndSetLDAPServerConnectivityAndSearchBase env upstream
             currentSecretVersion s in
  let ok := Status p.1 = ConditionTrue
            ∧ (d.1 = None ∨ ∃ sb, d.1 = Some sb ∧ Status sb = ConditionTrue) in
  r.1 = (Some p.1, d.1)
  ∧ config r.2 = d.2
  ∧ (ok →
     cache r.2
     = <[idp_Name upstream :=
           mkValidatedSettings (idp_Generation upstream) currentSecretVersion
             (ConnectionProtocol d.2)
             (us_Base (UserSearch d.2))
             (gs_Base (GroupSearch d.2))
             (DeepCopy (Some p.1)) (DeepCopy d.1)]> (cache s)
     ∧ ∀ w, cache r.2 !! idp_Name upstream = Some w →
            IDPSpecGeneration w = idp_Generation upstream
            ∧ BindSecretResourceVersion w = currentSecretVersion
            ∧ LDAPConnectionProtocol_ w = ConnectionProtocol (config r.2)
            ∧ UserSearchBase w = us_Base (UserSearch (config r.2))
            ∧ GroupSearchBase w = gs_Base (GroupSearch (config r.2))
            ∧ ConnectionValidCondition w = r.1.1
            ∧ SearchBaseFoundCondition w = r.1.2)
  ∧ (¬ ok → cache r.2 = cache s).
Proof.
  intros p d r ok. subst ok r.
  rewrite (connectivity_probe env upstream _ s Hprobe). fold p. fold d.
  cbn [fst snd config cache trace].
  rewrite !DeepCopy_same.
  split; [reflexivity|]. split; [reflexivity|]. split.
  - intros Hok.
    assert (Hnf : noFailures p.1 d.1 = true).
    { unfold noFailures. destruct Hok as [Hst Hsb].
      rewrite (bool_decide_eq_true_2 _ Hst). cbn [andb].
      destruct Hsb as [->|(sb & -> & Hsb)]; [reflexivity|].
      apply bool_decide_eq_true_2. exact Hsb. }
    rewrite Hnf. split; [reflexivity|].
    intros w Hw. rewrite lookup_insert_eq in Hw. injection Hw as <-.
    repeat split.
  - intros Hno.
    destruct (noFailures p.1 d.1) eqn:Hnf; [|reflexivity].
    exfalso. apply Hno. unfold noFailures in Hnf.
    apply andb_true_iff in Hnf as [H1 H2].
    apply bool_decide_eq_true_1 in H1. split; [exact H1|].
    destruct d.1 as [sb|]; [|left; reflexivity].
    right. exists sb. split; [reflexivity|].
    apply bool_decide_eq_true_1 in H2. exact H2.
Qed.

Lemma C5_cache_written_only_on_success_witness :
  let up := Fixture.upstream in
  let good := Fixture.st0 "starttls.example" in
  let down := Fixture.st0 "down.example" in
  let r1 := validateAndSetLDAPServerConnectivityAndSearchBase Fixture.env up "4242" good in
  let r2 := validateAndSetLDAPServerConnectivityAndSearchBase Fixture.env up "4242" down in
  ((Get (cache good) "idp1" "4242" 5).2 = false
   ∧ Status (TestConnection Fixture.env "bind-secret" "4242" good).1 = ConditionTrue
   ∧ ∃ w, cache r1.2 !! "idp1" = Some w
          ∧ BindSecretResourceVersion w = "4242"
          ∧ IDPSpecGeneration w = 5
          ∧ LDAPConnectionProtocol_ w = StartTLS
          ∧ UserSearchBase w = "ou=users,dc=example"
          ∧ ConnectionValidCondition w = r1.1.1)
  ∧ ((Get (cache down) "idp1" "4242" 5).2 = false
     ∧ Status (TestConnection Fixture.env "bind-secret" "4242" down).1 = ConditionFalse
     ∧ cache r2.2 = cache down
     ∧ Get (cache r2.2) "idp1" "4242" 5 = (zeroValidatedSettings, false)).
Proof.
  intros up good down r1 r2.
  assert (Hg : (Get (cache good) "idp1" "4242" 5).2 = false) by reflexivity.
  assert (Hd : (Get (cache down) "idp1" "4242" 5).2 = false) by reflexivity.
  split.
  - split; [exact Hg|]. split; [reflexivity|].
    destruct (C5_cache_written_only_on_success Fixture.env up "4242" good
                (or_introl Hg)) as (_ & _ & Hw & _).
    destruct Hw as [Hc Hentry]; [split; [reflexivity|left; reflexivity]|].
    fold r1 in Hc, Hentry. eexists. split.
    + rewrite Hc. apply lookup_insert_eq.
    + assert (Hl : cache r1.2 !! idp_Name up
                   = Some (mkValidatedSettings 5 "4242" StartTLS "ou=users,dc=example"
                             "ou=groups,dc=example" r1.1.1 None)).
      { rewrite Hc. rewrite lookup_insert_eq. reflexivity. }
      destruct (Hentry _ Hl) as (_ & _ & _ & _ & _ & Hcv & _).
      repeat split.
  - split; [exact Hd|]. split; [reflexivity|].
    destruct (C5_cache_written_only_on_success Fixture.env up "4242" down
                (or_introl Hd)) as (_ & _ & _ & Hno).
    assert (Hc : cache r2.2 = cache down).
    { apply Hno. intros [Hst _]. discriminate Hst. }
    split; [exact Hc|]. rewrite Hc. reflexivity.
Defined.

(* ------------------------------------------------------------------ *)
(** ** The orchestrator *)

Section OrchestratorFacts.

Variable env : Env.
Implicit Types (s : St) (informer : SecretInformer)
  (upstream : UpstreamGenericLDAPIDP).

Lemma ValidateSecret_frame informer n ns s :
  let r := ValidateSecret env informer n ns s in
  Type_ r.1.1 = typeBindSecretValid ∧ cache r.2 = cache s ∧ trace r.2 = trace s.
Proof.
  unfold ValidateSecret. unfold_m.
  destruct (informer ns n) as [e|secret]; [repeat split|].
  destruct (negb (bool_decide (secret_Type secret = SecretTypeBasicAuth)));
    [repeat split|].
  cbn [config cache trace BindUsername BindPassword set_BindUsername set_BindPassword].
  destruct (_ || _); repeat split.
Qed.

Lemma ValidateTLSConfig_frame tlsSpec s :
  let r := ValidateTLSConfig env tlsSpec s in
  Type_ r.1 = typeTLSConfigurationValid ∧ cache r.2 = cache s ∧ trace r.2 = trace s.
Proof.
  unfold ValidateTLSConfig. unfold_m.
  destruct tlsSpec as [spec|]; [|repeat split].
  destruct (String.length (CertificateAuthorityData spec) =? 0)%nat; [repeat split|].
  destruct (base64_DecodeString env (CertificateAuthorityData spec)) as [err|bundle];
    [repeat split|].
  destruct (negb (x509_AppendCertsFromPEM env bundle)); repeat split.
Qed.

(** The orchestrator in terms of its three steps. *)
Lemma ValidateGenericLDAP_steps upstream informer s :
  let a := ValidateSecret env informer (spec_BindSecretName upstream)
             (idp_Namespace upstream) s in
  let b := ValidateTLSConfig env (spec_TLSSpec upstream) a.2 in
  let c := validateAndSetLDAPServerConnectivityAndSearchBase env upstream a.1.2 b.2 in
  let validators := [mkGradated (Some a.1.1) true; mkGradated (Some b.1) true] in
  ValidateGenericLDAP env upstream informer s
  = if bool_decide (Status a.1.1 = ConditionTrue)
       && bool_decide (Status b.1 = ConditionTrue)
    then (mkGradatedConditions (validators ++ probed c.1), c.2)
    else (mkGradatedConditions validators, b.2).
Proof.
  intros a b c validators. unfold ValidateGenericLDAP. unfold_m.
  fold a. destruct a as [[sc ver] s1] eqn:Ea. cbn [fst snd] in *.
  fold b. destruct b as [tc s2] eqn:Eb. cbn [fst snd] in *.
  destruct (bool_decide (Status sc = ConditionTrue)
            && bool_decide (Status tc = ConditionTrue)); [|reflexivity].
  fold c. destruct c as [[conn sb] s3] eqn:Ec. cbn [fst snd].
  destruct sb; reflexivity.
Qed.

End OrchestratorFacts.

(** C6. When the bind-secret condition or the TLS condition is not true,
    [ValidateGenericLDAP] makes no connection attempt and no search-base
    query (and leaves the cache alone), and returns exactly two gradated
    conditions: the BindSecretValid one, then the TLSConfigurationValid
    one. *)
Theorem C6_fatal_short_circuit (env : Env) (upstream : UpstreamGenericLDAPIDP)
    (informer : SecretInformer) (s : St) :
  let a := ValidateSecret env informer (spec_BindSecretName upstream)
             (idp_Namespace upstream) s in
  let b := ValidateTLSConfig env (spec_TLSSpec upstream) a.2 in
  let r := ValidateGenericLDAP env upstream informer s in
  Status a.1.1 ≠ ConditionTrue ∨ Status b.1 ≠ ConditionTrue →
  Conditions r.1 = [Some a.1.1; Some b.1]
  ∧ gradatedConditions r.1 = [mkGradated (Some a.1.1) true; mkGradated (Some b.1) true]
  ∧ Type_ a.1.1 = "BindSecretValid"
  ∧ Type_ b.1 = "TLSConfigurationValid"
  ∧ newEvents s r.2 = []
  ∧ trace r.2 = trace s
  ∧ cache r.2 = cache s.
Proof.
  intros a b r Hbad. subst r. rewrite ValidateGenericLDAP_steps. fold a. fold b.
  assert (Hguard : bool_decide (Status a.1.1 = ConditionTrue)
                   && bool_decide (Status b.1 = ConditionTrue) = false).
  { destruct Hbad as [H|H]; rewrite (bool_decide_eq_false_2 _ H);
      [reflexivity|apply andb_false_r]. }
  rewrite Hguard. cbn [fst snd gradatedConditions].
  destruct (ValidateSecret_frame env informer (spec_BindSecretName upstream)
              (idp_Namespace upstream) s) as (Ta & Ca & Tra).
  destruct (ValidateTLSConfig_frame env (spec_TLSSpec upstream) a.2) as (Tb & Cb & Trb).
  fold a in Ta, Ca, Tra. fold b in Tb, Cb, Trb.
  assert (Ht : trace b.2 = trace s) by congruence.
  repeat split; try assumption; try congruence.
  unfold newEvents. rewrite Ht. apply drop_all.
Qed.

Lemma C6_fatal_short_circuit_witness :
  let s := Fixture.st0 "ldaps.example" in
  let r := ValidateGenericLDAP Fixture.env Fixture.upstream Fixture.noSecrets s in
  length (gradatedConditions r.1) = 2%nat ∧ trace r.2 = [].
Proof.
  intros s r.
  destruct (C6_fatal_short_circuit Fixture.env Fixture.upstream Fixture.noSecrets s)
    as (_ & Hl & _ & _ & _ & Ht & _).
  - left. discriminate.
  - fold r in Hl, Ht. rewrite Hl. split; [reflexivity|exact Ht].
Defined.

Lemma connectivity_condition_type (env : Env) (upstream : UpstreamGenericLDAPIDP)
    (v : string) (s : St) :
  cacheWellFormed (cache s) →
  ∃ conn, (validateAndSetLDAPServerConnectivityAndSearchBase env upstream v s).1.1
          = Some conn
          ∧ Type_ conn = typeLDAPConnectionValid.
Proof.
  intros Hwf.
  destruct (Get (cache s) (idp_Name upstream) v (idp_Generation upstream))
    as [vs b] eqn:Eg.
  destruct (decide (b = true ∧ UserSearchBase vs ≠ "" ∧ GroupSearchBase vs ≠ ""))
    as [(-> & Hu & Hg)|Hno].
  - rewrite (connectivity_reuse env upstream v s vs Eg Hu Hg). cbn [fst snd].
    apply Get_hit in Eg as (Hl & _). exact (Hwf _ _ Hl).
  - rewrite connectivity_probe.
    + cbn [fst snd]. eexists. split; [reflexivity|]. apply TestConnection_Type.
    + rewrite Eg. cbn [fst snd]. destruct b; [|auto].
      destruct (decide (UserSearchBase vs = "")); [auto|].
      destruct (decide (GroupSearchBase vs = "")); [auto|].
      exfalso. apply Hno. auto.
Qed.

(** The cache stays well formed across the connectivity step. *)
Lemma connectivity_preserves_cacheWellFormed (env : Env)
    (upstream : UpstreamGenericLDAPIDP) (v : string) (s : St) :
  cacheWellFormed (cache s) →
  cacheWellFormed
    (cache (validateAndSetLDAPServerConnectivityAndSearchBase env upstream v s).2).
Proof.
  intros Hwf.
  destruct (Get (cache s) (idp_Name upstream) v (idp_Generation upstream))
    as [vs b] eqn:Eg.
  destruct (decide (b = true ∧ UserSearchBase vs ≠ "" ∧ GroupSearchBase vs ≠ ""))
    as [(-> & Hu & Hg)|Hno].
  - rewrite (connectivity_reuse env upstream v s vs Eg Hu Hg). exact Hwf.
  - rewrite connectivity_probe.
    + cbn [fst snd cache]. destruct (noFailures _ _); [|exact Hwf].
      intros n w. rewrite lookup_insert. destruct (decide (idp_Name upstream = n)).
      * intros [= <-]. cbn. eexists. split; [reflexivity|]. apply TestConnection_Type.
      * apply Hwf.
    + rewrite Eg. cbn [fst snd]. destruct b; [|auto].
      destruct (decide (UserSearchBase vs = "")); [auto|].
      destruct (decide (GroupSearchBase vs = "")); [auto|].
      exfalso. apply Hno. auto.
Qed.

(** C8. [ValidateGenericLDAP] returns its gradated conditions in this
    order: the bind-secret condition (type BindSecretValid, fatal), the TLS
    condition (type TLSConfigurationValid, fatal) and then, only when both
    of those are true, the connection condition of the connectivity step
    (non-fatal) followed, when it is not nil, by its search-base condition
    (fatal).  The connection condition is of type LDAPConnectionValid
    whenever the cache holds well-formed entries, as all entries written by
    this package are; the search-base condition is whatever the upstream's
    resolver (or the cache) supplied. *)
Theorem C8_condition_order_and_fatality (env : Env) (upstream : UpstreamGenericLDAPIDP)
    (informer : SecretInformer) (s : St) :
  let a := ValidateSecret env informer (spec_BindSecretName upstream)
             (idp_Namespace upstream) s in
  let b := ValidateTLSConfig env (spec_TLSSpec upstream) a.2 in
  let c := validateAndSetLDAPServerConnectivityAndSearchBase env upstream a.1.2 b.2 in
  let r := ValidateGenericLDAP env upstream informer s in
  Type_ a.1.1 = "BindSecretValid"
  ∧ Type_ b.1 = "TLSConfigurationValid"
  ∧ (Status a.1.1 = ConditionTrue ∧ Status b.1 = ConditionTrue →
     (∀ sb, c.1.2 = Some sb →
        gradatedConditions r.1
        = [mkGradated (Some a.1.1) true; mkGradated (Some b.1) true;
           mkGradated c.1.1 false; mkGradated (Some sb) true])
     ∧ (c.1.2 = None →
        gradatedConditions r.1
        = [mkGradated (Some a.1.1) true; mkGradated (Some b.1) true;
           mkGradated c.1.1 false])
     ∧ (cacheWellFormed (cache s) →
        ∃ conn, c.1.1 = Some conn ∧ Type_ conn = "LDAPConnectionValid"))
  ∧ (¬ (Status a.1.1 = ConditionTrue ∧ Status b.1 = ConditionTrue) →
     gradatedConditions r.1
     = [mkGradated (Some a.1.1) true; mkGradated (Some b.1) true]).
Proof.
  intros a b c r. subst r. rewrite ValidateGenericLDAP_steps. fold a. fold b. fold c.
  destruct (ValidateSecret_frame env informer (spec_BindSecretName upstream)
              (idp_Namespace upstream) s) as (Ta & Ca & _).
  destruct (ValidateTLSConfig_frame env (spec_TLSSpec upstream) a.2) as (Tb & Cb & _).
  fold a in Ta, Ca. fold b in Tb, Cb.
  split; [exact Ta|]. split; [exact Tb|]. split.
  - intros [Ha Hb].
    rewrite (bool_decide_eq_true_2 _ Ha), (bool_decide_eq_true_2 _ Hb).
    cbn [andb fst snd gradatedConditions]. unfold probed.
    split; [|split].
    + intros sb ->. reflexivity.
    + intros ->. reflexivity.
    + intros Hwf. apply connectivity_condition_type. rewrite Cb, Ca. exact Hwf.
  - intros Hno.
    destruct (bool_decide (Status a.1.1 = ConditionTrue)) eqn:E1;
      [|reflexivity].
    destruct (bool_decide (Status b.1 = ConditionTrue)) eqn:E2;
      [|reflexivity].
    apply bool_decide_eq_true_1 in E1. apply bool_decide_eq_true_1 in E2.
    exfalso. apply Hno. auto.
Qed.

Lemma C8_condition_order_and_fatality_witness :
  let s := Fixture.st0 "down.example" in
  let r := ValidateGenericLDAP Fixture.env Fixture.upstream Fixture.oneSecret s in
  map isFatal (gradatedConditions r.1) = [true; true; false]
  ∧ map (λ gc, Type_ <$> condition gc) (gradatedConditions r.1)
    = [Some "BindSecretValid"; Some "TLSConfigurationValid"; Some "LDAPConnectionValid"].
Proof.
  intros s r.
  destruct (C8_condition_order_and_fatality Fixture.env Fixture.upstream
              Fixture.oneSecret s) as (Ta & Tb & H & _).
  destruct H as (_ & Hl & Hc); [split; reflexivity|].
  fold r in Hl. rewrite (Hl eq_refl).
  destruct Hc as (conn & Hconn & Tc).
  { intros n v Hv. subst s. cbn [cache Fixture.st0] in Hv. rewrite lookup_empty in Hv. discriminate Hv. }
  cbn [map isFatal condition fmap option_fmap option_map].
  rewrite Ta, Tb, Hconn. cbn. rewrite Tc. split; reflexivity.
Defined.

(* ------------------------------------------------------------------ *)
(** ** Failures of the secret lookup *)


(* ------------------------------------------------------------------ *)
(** * Further properties *)

(** ** The settings cache: Set followed by Get *)

(** What was stored under a name is found again under that name with the
    stored entry's own secret version and generation, and is not found
    with any other secret version or any other generation. *)
Theorem Set_then_Get (s : gmap string ValidatedSettings) (name : string)
    (v : ValidatedSettings) (rv : string) (gen : Z) :
  Get (Set_ s name v) name (BindSecretResourceVersion v) (IDPSpecGeneration v)
  = (v, true)
  ∧ (rv ≠ BindSecretResourceVersion v ∨ gen ≠ IDPSpecGeneration v →
     Get (Set_ s name v) name rv gen = (zeroValidatedSettings, false)).
Proof.
  split.
  - apply Get_hit. unfold Set_. rewrite lookup_insert_eq. auto.
  - intros Hne. apply Get_miss. intros w Hw [H1 H2].
    unfold Set_ in Hw. rewrite lookup_insert_eq in Hw. injection Hw as <-.
    destruct Hne as [H|H]; apply H; congruence.
Qed.

Lemma Set_then_Get_witness :
  let v := mkValidatedSettings 5 "v1" TLS "ou=users" "ou=groups" None None in
  Get (Set_ ∅ "idp1" v) "idp1" "v2" 5 = (zeroValidatedSettings, false).
Proof.
  intros v.
  apply (Set_then_Get ∅ "idp1" v "v2" 5). left. discriminate.
Defined.

(** A Set under one name does not change what Get answers under another
    name. *)
Theorem Set_other_name (s : gmap string ValidatedSettings) (name other : string)
    (v : ValidatedSettings) (rv : string) (gen : Z) :
  name ≠ other →
  Get (Set_ s name v) other rv gen = Get s other rv gen.
Proof.
  intros Hne. unfold Get, Set_. rewrite lookup_insert_ne by assumption. reflexivity.
Qed.

Lemma Set_other_name_witness :
  let v := mkValidatedSettings 5 "v1" TLS "ou=users" "ou=groups" None None in
  Get (Set_ {["idp2" := v]} "idp1" zeroValidatedSettings) "idp2" "v1" 5
  = Get {["idp2" := v]} "idp2" "v1" 5.
Proof.
  intros v. apply Set_other_name. discriminate.
Defined.

(* ------------------------------------------------------------------ *)
(** ** The bind-secret validator *)

Lemma length_zero (x : string) : (String.length x =? 0)%nat = true ↔ x = "".
Proof.
  destruct x as [|a x]; cbn; split; intros H; (reflexivity || discriminate H).
Qed.

(** The secret's two credentials, as [ValidateSecret] reads them. *)
Lemma ValidateSecret_found (env : Env) (informer : SecretInformer)
    (n ns : string) (s : St) (secret : Secret) :
  informer ns n = inr secret →
  secret_Type secret = SecretTypeBasicAuth →
  let u := string_of_bytes (secret_Data secret !! BasicAuthUsernameKey) in
  let p := string_of_bytes (secret_Data secret !! BasicAuthPasswordKey) in
  ValidateSecret env informer n ns s
  = ((if (String.length u =? 0)%nat || (String.length p =? 0)%nat
      then mkCondition typeBindSecretValid ConditionFalse ReasonMissingKeys
             ("referenced Secret " +++ fmt_q env n
              +++ " is missing required keys ["
              +++ fmt_q env BasicAuthUsernameKey +++ " "
              +++ fmt_q env BasicAuthPasswordKey +++ "]")
      else mkCondition typeBindSecretValid ConditionTrue ReasonSuccess
             "loaded bind secret",
      secret_ResourceVersion secret),
     mkSt (set_BindPassword p (set_BindUsername u (config s))) (cache s) (trace s)).
Proof.
  intros Hi Ht u p. unfold ValidateSecret. rewrite Hi.
  rewrite (bool_decide_eq_true_2 _ Ht). cbn [negb]. unfold_m.
  cbn [config cache trace BindUsername BindPassword set_BindUsername set_BindPassword].
  fold u. fold p. destruct (_ || _); reflexivity.
Qed.

(** The bind-secret condition is true exactly when the secret was found,
    is of the basic-auth type, and has a non-empty username and a non-empty
    password; the resource version returned is then the secret's, and the
    configuration's bind credentials are the secret's. *)
Theorem ValidateSecret_true_iff (env : Env) (informer : SecretInformer)
    (n ns : string) (s : St) :
  let r := ValidateSecret env informer n ns s in
  (Status r.1.1 = ConditionTrue ↔
   ∃ secret, informer ns n = inr secret
             ∧ secret_Type secret = "kubernetes.io/basic-auth"
             ∧ string_of_bytes (secret_Data secret !! "username") ≠ ""
             ∧ string_of_bytes (secret_Data secret !! "password") ≠ "")
  ∧ (∀ secret, informer ns n = inr secret → Status r.1.1 = ConditionTrue →
     r.1.2 = secret_ResourceVersion secret
     ∧ BindUsername (config r.2) = string_of_bytes (secret_Data secret !! "username")
     ∧ BindPassword (config r.2) = string_of_bytes (secret_Data secret !! "password")).
Proof.
  intros r. subst r.
  destruct (informer ns n) as [e|secret] eqn:Hi.
  - unfold ValidateSecret. rewrite Hi. cbn. split.
    + split; [intros H; discriminate H|intros (x & Hx & _); discriminate Hx].
    + intros x Hx. discriminate Hx.
  - destruct (decide (secret_Type secret = SecretTypeBasicAuth)) as [Ht|Ht].
    + rewrite (ValidateSecret_found env informer n ns s secret Hi Ht).
      cbn [fst snd config].
      destruct (String.length _ =? 0)%nat eqn:E1;
        [|destruct (String.length (string_of_bytes
                      (secret_Data secret !! BasicAuthPasswordKey)) =? 0)%nat eqn:E2];
        cbn [orb Status]; split.
      * split; [intros H; discriminate H|].
        intros (x & [= <-] & _ & Hu & _). apply length_zero in E1. contradiction.
      * intros x _ H. discriminate H.
      * split; [intros H; discriminate H|].
        intros (x & [= <-] & _ & _ & Hp). apply length_zero in E2. contradiction.
      * intros x _ H. discriminate H.
      * split; [|reflexivity]. intros _. exists secret.
        split; [reflexivity|]. split; [exact Ht|].
        unfold BasicAuthUsernameKey, BasicAuthPasswordKey in E1, E2.
        split; intros H; apply length_zero in H; congruence.
      * intros x [= <-] _. repeat split.
    + unfold ValidateSecret. rewrite Hi.
      rewrite (bool_decide_eq_false_2 _ Ht). cbn. split.
      * split; [intros H; discriminate H|].
        intros (x & [= <-] & Hx & _). contradiction.
      * intros x _ H. discriminate H.
Qed.

Lemma ValidateSecret_true_iff_witness :
  let r := ValidateSecret Fixture.env Fixture.oneSecret "bind-secret" "ns"
             (Fixture.st0 "ldaps.example") in
  Status r.1.1 = ConditionTrue ∧ r.1.2 = "4242"
  ∧ BindUsername (config r.2) = "a" ∧ BindPassword (config r.2) = "b".
Proof.
  intros r.
  destruct (ValidateSecret_true_iff Fixture.env Fixture.oneSecret "bind-secret" "ns"
              (Fixture.st0 "ldaps.example")) as [Hiff Hres].
  assert (Ht : Status r.1.1 = ConditionTrue).
  { apply Hiff. eexists. split; [reflexivity|]. split; [reflexivity|].
    split; discriminate. }
  split; [exact Ht|]. exact (Hres _ eq_refl Ht).
Defined.

(** A secret of another type than basic-auth is rejected before anything
    is read from it: the condition is false with reason SecretWrongType and
    a message naming the actual type, the secret's resource version is
    still returned, and the configuration keeps the bind credentials it
    had. *)
Theorem ValidateSecret_wrong_type (env : Env) (informer : SecretInformer)
    (n ns : string) (s : St) (secret : Secret) :
  informer ns n = inr secret →
  secret_Type secret ≠ "kubernetes.io/basic-auth" →
  let r := ValidateSecret env informer n ns s in
  Status r.1.1 = ConditionFalse
  ∧ Reason r.1.1 = "SecretWrongType"
  ∧ Contains (Message r.1.1) (fmt_q env (secret_Type secret))
  ∧ r.1.2 = secret_ResourceVersion secret
  ∧ r.2 = s.
Proof.
  intros Hi Ht r. subst r. unfold ValidateSecret. rewrite Hi.
  rewrite (bool_decide_eq_false_2 _ Ht). cbn [negb fst snd Status Reason Message].
  unfold mret, M_ret. cbn [fst snd Status Reason Message].
  repeat split. do 3 apply Contains_app_r.
  exists "", (" (should be " +++ fmt_q env SecretTypeBasicAuth +++ ")"). reflexivity.
Qed.

Lemma ValidateSecret_wrong_type_witness :
  let secret := mkSecret "Opaque" "77" {[ "username" := [x61]; "password" := [x62] ]} in
  let r := ValidateSecret Fixture.env (λ _ _, inr secret) "bind-secret" "ns"
             (Fixture.st0 "ldaps.example") in
  Reason r.1.1 = "SecretWrongType" ∧ r.1.2 = "77"
  ∧ BindUsername (config r.2) = "cn=admin,dc=example".
Proof.
  intros secret r.
  destruct (ValidateSecret_wrong_type Fixture.env (λ _ _, inr secret) "bind-secret"
              "ns" (Fixture.st0 "ldaps.example") secret eq_refl)
    as (_ & Hr & _ & Hv & Hs).
  - discriminate.
  - fold r in Hr, Hv, Hs. rewrite Hs. repeat split; assumption.
Defined.

(** A basic-auth secret whose username or password is missing or empty
    gives a false condition with reason SecretMissingKeys and the secret's
    resource version; by then the configuration's bind credentials have
    been overwritten with what the secret holds, empty values included. *)
Theorem ValidateSecret_missing_keys (env : Env) (informer : SecretInformer)
    (n ns : string) (s : St) (secret : Secret) :
  informer ns n = inr secret →
  secret_Type secret = "kubernetes.io/basic-auth" →
  let u := string_of_bytes (secret_Data secret !! "username") in
  let p := string_of_bytes (secret_Data secret !! "password") in
  u = "" ∨ p = "" →
  let r := ValidateSecret env informer n ns s in
  Status r.1.1 = ConditionFalse
  ∧ Reason r.1.1 = "SecretMissingKeys"
  ∧ r.1.2 = secret_ResourceVersion secret
  ∧ BindUsername (config r.2) = u
  ∧ BindPassword (config r.2) = p.
Proof.
  intros Hi Ht u p Hempty r. subst r.
  rewrite (ValidateSecret_found env informer n ns s secret Hi Ht).
  unfold BasicAuthUsernameKey, BasicAuthPasswordKey. fold u. fold p.
  assert (Hg : (String.length u =? 0)%nat || (String.length p =? 0)%nat = true).
  { apply orb_true_iff. destruct Hempty as [H|H]; [left|right];
      apply length_zero; exact H. }
  rewrite Hg. repeat split.
Qed.

Lemma ValidateSecret_missing_keys_witness :
  let secret := mkSecret "kubernetes.io/basic-auth" "78" {[ "username" := [x61] ]} in
  let r := ValidateSecret Fixture.env (λ _ _, inr secret) "bind-secret" "ns"
             (Fixture.st0 "ldaps.example") in
  Reason r.1.1 = "SecretMissingKeys" ∧ r.1.2 = "78"
  ∧ BindUsername (config r.2) = "a" ∧ BindPassword (config r.2) = "".
Proof.
  intros secret r.
  destruct (ValidateSecret_missing_keys Fixture.env (λ _ _, inr secret) "bind-secret"
              "ns" (Fixture.st0 "ldaps.example") secret eq_refl eq_refl)
    as (_ & Hr & Hv & Hu & Hp).
  - right. reflexivity.
  - repeat split; assumption.
Defined.

(** Whatever the lister answers, [ValidateSecret] writes to nothing but
    the two bind credentials of the configuration. *)
Theorem ValidateSecret_touches_credentials_only (env : Env) (informer : SecretInformer)
    (n ns : string) (s : St) :
  let r := ValidateSecret env informer n ns s in
  ∃ u p, r.2 = mkSt (set_BindPassword p (set_BindUsername u (config s)))
                 (cache s) (trace s)
         ∧ Name (config r.2) = Name (config s)
         ∧ Host (config r.2) = Host (config s)
         ∧ ConnectionProtocol (config r.2) = ConnectionProtocol (config s)
         ∧ CABundle (config r.2) = CABundle (config s)
         ∧ UserSearch (config r.2) = UserSearch (config s)
         ∧ GroupSearch (config r.2) = GroupSearch (config s).
Proof.
  intros r. subst r.
  assert (Hsame : s = mkSt (set_BindPassword (BindPassword (config s))
                              (set_BindUsername (BindUsername (config s)) (config s)))
                        (cache s) (trace s)).
  { destruct s as [[] ? ?]. reflexivity. }
  destruct (informer ns n) as [e|secret] eqn:Hi.
  - exists (BindUsername (config s)), (BindPassword (config s)).
    unfold ValidateSecret. rewrite Hi. cbn [fst snd]. unfold mret, M_ret.
    cbn [snd]. split; [exact Hsame|repeat split].
  - destruct (decide (secret_Type secret = SecretTypeBasicAuth)) as [Ht|Ht].
    + rewrite (ValidateSecret_found env informer n ns s secret Hi Ht).
      cbn [snd]. do 2 eexists. split; [reflexivity|repeat split].
    + exists (BindUsername (config s)), (BindPassword (config s)).
      unfold ValidateSecret. rewrite Hi, (bool_decide_eq_false_2 _ Ht).
      cbn [negb]. unfold mret, M_ret. cbn [snd]. split; [exact Hsame|repeat split].
Qed.

(* ------------------------------------------------------------------ *)
(** ** The connection probe *)

(** [TestConnection] does not read the protocol the configuration came
    with: run from two states that differ in it only, it makes the same
    attempts and returns the same condition and state.  Of the
    configuration it writes the protocol and nothing else. *)
Theorem TestConnection_protocol_only (env : Env) (n v : string) (s : St)
    (p : LDAPConnectionProtocol) :
  let r := TestConnection env n v s in
  TestConnection env n v (mkSt (set_ConnectionProtocol p (config s)) (cache s) (trace s))
  = r
  ∧ config r.2 = set_ConnectionProtocol (ConnectionProtocol (config r.2)) (config s).
Proof.
  intros r. subst r. unfold TestConnection, testConnection. unfold_m.
  cbn [config cache trace].
  change (set_ConnectionProtocol TLS (set_ConnectionProtocol p (config s)))
    with (set_ConnectionProtocol TLS (config s)).
  split; [reflexivity|].
  destruct (provider_TestConnection env (trace s) _) as [e|];
    cbn [config cache trace]; [|reflexivity].
  destruct (provider_TestConnection env _ _) as [e'|]; reflexivity.
Qed.

(* ------------------------------------------------------------------ *)
(** ** The publication decision, read backwards *)

Lemma rangeFailed_spec (fatal : bool) (l : list gradatedCondition) :
  nonNil l →
  ∃ b, rangeFailed fatal l = Some b
       ∧ (b = true ↔ ∃ gc, gc ∈ l ∧ isFatal gc = fatal ∧ failed gc).
Proof.
  intros Hnn.
  destruct (rangeFailed fatal l) as [[|]|] eqn:E.
  - exists true. split; [reflexivity|]. split; [intros _|reflexivity].
    induction l as [|g l IH]; [discriminate E|].
    apply Forall_cons in Hnn as [[c Hc] Hnn]. cbn [rangeFailed] in E. rewrite Hc in E.
    destruct (bool_decide (Status c ≠ ConditionTrue)
              && (if fatal then isFatal g else negb (isFatal g))) eqn:Eg.
    + apply andb_true_iff in Eg as [E1 E2].
      apply bool_decide_eq_true_1 in E1. apply flag_matches in E2.
      exists g. split; [apply elem_of_cons; auto|]. split; [exact E2|].
      exists c. auto.
    + destruct (IH Hnn E) as (gc & Hin & H). exists gc.
      split; [apply elem_of_cons; auto|exact H].
  - exists false. split; [reflexivity|]. split; [intros H; discriminate H|].
    intros H. rewrite (rangeFailed_some fatal l Hnn H) in E. discriminate E.
  - exfalso. induction l as [|g l IH]; [discriminate E|].
    apply Forall_cons in Hnn as [[c Hc] Hnn]. cbn [rangeFailed] in E. rewrite Hc in E.
    destruct (_ && _); [discriminate E|]. exact (IH Hnn E).
Qed.

(** For a list without nil conditions [EvaluateConditions] never panics,
    and its answer can be read backwards: the provider is withheld only
    when some fatal condition is not true, a returned provider is the one
    made from the given configuration, and no retry is asked for only when
    every condition is true. *)
Theorem EvaluateConditions_decision (l : list gradatedCondition) (cfg : ProviderConfig) :
  nonNil l →
  ∃ p retry,
    EvaluateConditions (mkGradatedConditions l) cfg = Some (p, retry)
    ∧ (p = None ↔ ∃ gc, gc ∈ l ∧ isFatal gc = true ∧ failed gc)
    ∧ (p = None ∨ p = Some (New cfg))
    ∧ (retry = false ↔ ∀ gc, gc ∈ l → holds gc).
Proof.
  intros Hnn. unfold EvaluateConditions. cbn [gradatedConditions].
  destruct (rangeFailed_spec true l Hnn) as (b1 & E1 & H1).
  destruct (rangeFailed_spec false l Hnn) as (b2 & E2 & H2).
  rewrite E1.
  assert (Hall : b1 = false → b2 = false → ∀ gc, gc ∈ l → holds gc).
  { intros -> -> gc Hin.
    pose proof (proj1 (Forall_forall _ _) Hnn gc Hin) as [c Hc].
    exists c. split; [exact Hc|].
    destruct (decide (Status c = ConditionTrue)) as [|Hst]; [assumption|].
    exfalso. destruct (isFatal gc) eqn:Ef.
    - assert (true = true → False); [|auto]. intros _.
      assert (Hx : false = true); [|discriminate Hx].
      apply H1. exists gc. split; [exact Hin|]. split; [exact Ef|]. exists c. auto.
    - assert (Hx : false = true); [|discriminate Hx].
      apply H2. exists gc. split; [exact Hin|]. split; [exact Ef|]. exists c. auto. }
  assert (Hfail : ∀ f gc, gc ∈ l → isFatal gc = f → failed gc →
                          ¬ ∀ gc, gc ∈ l → holds gc).
  { intros f gc Hin _ Hf Hh. exact (holds_not_failed gc (Hh gc Hin) Hf). }
  destruct b1.
  - exists None, true. split; [reflexivity|].
    split; [split; [intros _; apply H1; reflexivity|reflexivity]|].
    split; [left; reflexivity|].
    split; [intros H; discriminate H|].
    intros Hh. exfalso. destruct (proj1 H1 eq_refl) as (gc & Hin & Hf & Hfl).
    exact (Hfail _ gc Hin Hf Hfl Hh).
  - rewrite E2. destruct b2.
    + exists (Some (New cfg)), true. split; [reflexivity|].
      split; [split; [intros H; discriminate H|]|].
      { intros H. apply H1 in H. discriminate H. }
      split; [right; reflexivity|].
      split; [intros H; discriminate H|].
      intros Hh. exfalso. destruct (proj1 H2 eq_refl) as (gc & Hin & Hf & Hfl).
      exact (Hfail _ gc Hin Hf Hfl Hh).
    + exists (Some (New cfg)), false. split; [reflexivity|].
      split; [split; [intros H; discriminate H|]|].
      { intros H. apply H1 in H. discriminate H. }
      split; [right; reflexivity|].
      split; [intros _; apply Hall; reflexivity|reflexivity].
Qed.

Lemma EvaluateConditions_decision_witness :
  let l := [mkGradated (Some Fixture.good) true; mkGradated (Some Fixture.bad) true] in
  nonNil l
  ∧ ∃ p retry, EvaluateConditions (mkGradatedConditions l) (Fixture.config0 "ldaps.example")
               = Some (p, retry)
               ∧ (p = None ∨ p = Some (New (Fixture.config0 "ldaps.example"))).
Proof.
  intros l.
  assert (Hnn : nonNil l) by (repeat constructor; eexists; reflexivity).
  split; [exact Hnn|].
  destruct (EvaluateConditions_decision l (Fixture.config0 "ldaps.example") Hnn)
    as (p & retry & He & _ & Hp & _).
  exists p, retry. split; assumption.
Defined.

(** For lists without nil conditions the decision does not depend on the
    order of the conditions. *)
Theorem EvaluateConditions_order_irrelevant (l l' : list gradatedCondition)
    (cfg : ProviderConfig) :
  nonNil l → l ≡ₚ l' →
  EvaluateConditions (mkGradatedConditions l) cfg
  = EvaluateConditions (mkGradatedConditions l') cfg.
Proof.
  intros Hnn Hp.
  assert (Hnn' : nonNil l').
  { unfold nonNil in *. rewrite <- Hp. exact Hnn. }
  assert (Hsame : ∀ f, rangeFailed f l = rangeFailed f l').
  { intros f.
    destruct (rangeFailed_spec f l Hnn) as (b & E & H).
    destruct (rangeFailed_spec f l' Hnn') as (b' & E' & H').
    rewrite E, E'. f_equal.
    assert (Hiff : b = true ↔ b' = true).
    { rewrite H, H'. split; intros (gc & Hin & Hr); exists gc;
        (split; [|exact Hr]); [rewrite <- Hp|rewrite Hp]; exact Hin. }
    destruct b, b'; try reflexivity; exfalso.
    - assert (Hx : false = true) by (apply Hiff; reflexivity). discriminate Hx.
    - assert (Hx : false = true) by (apply Hiff; reflexivity). discriminate Hx. }
  unfold EvaluateConditions. cbn [gradatedConditions]. rewrite !Hsame. reflexivity.
Qed.

Lemma EvaluateConditions_order_irrelevant_witness :
  let a := mkGradated (Some Fixture.bad) false in
  let b := mkGradated (Some Fixture.bad) true in
  EvaluateConditions (mkGradatedConditions [a; b]) (Fixture.config0 "ldaps.example")
  = EvaluateConditions (mkGradatedConditions [b; a]) (Fixture.config0 "ldaps.example").
Proof.
  intros a b. apply EvaluateConditions_order_irrelevant.
  - repeat constructor; eexists; reflexivity.
  - apply perm_swap.
Defined.

Lemma rangeFailed_fatal_panics (l : list gradatedCondition) :
  rangeFailed true l = None ↔
  ∃ (l1 : list gradatedCondition) f l2,
    l = (l1 ++ mkGradated None f :: l2)%list
    ∧ nonNil l1
    ∧ ∀ gc, gc ∈ l1 → ¬ (isFatal gc = true ∧ failed gc).
Proof.
  induction l as [|g l IH].
  - split; [intros H; discriminate H|].
    intros (l1 & f & l2 & H & _). destruct l1; discriminate H.
  - cbn [rangeFailed]. destruct g as [[c|] fg]; cbn [condition isFatal].
    + destruct (bool_decide (Status c ≠ ConditionTrue) && fg) eqn:Eg.
      * split; [intros H; discriminate H|].
        intros (l1 & f & l2 & H & _ & Hno). exfalso.
        destruct l1 as [|g1 l1]; [discriminate H|]. injection H as <- _.
        apply andb_true_iff in Eg as [E1 ->]. apply bool_decide_eq_true_1 in E1.
        apply (Hno (mkGradated (Some c) true)); [apply elem_of_cons; auto|].
        split; [reflexivity|]. exists c. auto.
      * rewrite IH. split.
        -- intros (l1 & f & l2 & -> & Hnn & Hno).
           exists (mkGradated (Some c) fg :: l1), f, l2.
           split; [reflexivity|]. split.
           ++ apply Forall_cons. split; [eexists; reflexivity|exact Hnn].
           ++ intros gc Hin [Hf (c' & Hc' & Hst)].
              apply elem_of_cons in Hin as [->|Hin].
              ** cbn in Hf, Hc'. injection Hc' as <-. subst fg.
                 rewrite (bool_decide_eq_true_2 _ Hst) in Eg. discriminate Eg.
              ** apply (Hno gc Hin). split; [exact Hf|]. exists c'. auto.
        -- intros (l1 & f & l2 & H & Hnn & Hno).
           destruct l1 as [|g1 l1]; [discriminate H|]. injection H as <- ->.
           exists l1, f, l2. split; [reflexivity|].
           apply Forall_cons in Hnn as [_ Hnn]. split; [exact Hnn|].
           intros gc Hin. apply Hno. apply elem_of_cons. auto.
    + split; [intros _|reflexivity].
      exists [], fg, l. split; [reflexivity|]. split; [constructor|].
      intros gc Hin. apply elem_of_nil in Hin. contradiction.
Qed.

Lemma rangeFailed_passed_nonNil (fatal : bool) (l : list gradatedCondition) :
  rangeFailed fatal l = Some false → nonNil l.
Proof.
  induction l as [|g l IH]; intros H; [constructor|].
  cbn [rangeFailed] in H. destruct (condition g) as [c|] eqn:Ec; [|discriminate H].
  destruct (_ && _); [discriminate H|].
  apply Forall_cons. split; [exists c; exact Ec|exact (IH H)].
Qed.

(** [EvaluateConditions] panics exactly when the list holds a nil
    condition that no failed fatal condition precedes: the first loop
    dereferences every condition up to the first fatal one that is not
    true. *)
Theorem EvaluateConditions_panics_iff (l : list gradatedCondition) (cfg : ProviderConfig) :
  EvaluateConditions (mkGradatedConditions l) cfg = None ↔
  ∃ (l1 : list gradatedCondition) f l2,
    l = (l1 ++ mkGradated None f :: l2)%list
    ∧ nonNil l1
    ∧ ∀ gc, gc ∈ l1 → ¬ (isFatal gc = true ∧ failed gc).
Proof.
  rewrite <- rangeFailed_fatal_panics.
  unfold EvaluateConditions. cbn [gradatedConditions].
  destruct (rangeFailed true l) as [[|]|] eqn:E.
  - split; intros H; discriminate H.
  - destruct (rangeFailed_spec false l (rangeFailed_passed_nonNil true l E))
      as (b & -> & _).
    destruct b; split; intros H; discriminate H.
  - split; reflexivity.
Qed.

(* ------------------------------------------------------------------ *)
(** ** The cache across passes *)

Lemma noFailures_iff (c : Condition) (sb : option Condition) :
  noFailures c sb = true ↔
  Status c = ConditionTrue
  ∧ (sb = None ∨ ∃ x, sb = Some x ∧ Status x = ConditionTrue).
Proof.
  unfold noFailures. rewrite andb_true_iff, bool_decide_eq_true.
  destruct sb as [x|].
  - rewrite bool_decide_eq_true. split; intros [H1 H2]; (split; [exact H1|]).
    + right. exists x. auto.
    + destruct H2 as [H2|(y & [= <-] & H2)]; [discriminate H2|exact H2].
  - split; intros [H1 _]; auto.
Qed.

(** The connectivity step goes one of two ways. *)
Lemma connectivity_cases (env : Env) (upstream : UpstreamGenericLDAPIDP)
    (v : string) (s : St) :
  let hit := Get (cache s) (idp_Name upstream) v (idp_Generation upstream) in
  (hit.2 = true ∧ UserSearchBase hit.1 ≠ "" ∧ GroupSearchBase hit.1 ≠ "")
  ∨ (hit.2 = false ∨ UserSearchBase hit.1 = "" ∨ GroupSearchBase hit.1 = "").
Proof.
  intros hit. destruct hit.2; [|auto].
  destruct (decide (UserSearchBase hit.1 = "")); [auto|].
  destruct (decide (GroupSearchBase hit.1 = "")); [auto|].
  left. auto.
Qed.

Lemma connectivity_reuse' (env : Env) (upstream : UpstreamGenericLDAPIDP)
    (v : string) (s : St) :
  let hit := Get (cache s) (idp_Name upstream) v (idp_Generation upstream) in
  hit.2 = true → UserSearchBase hit.1 ≠ "" → GroupSearchBase hit.1 ≠ "" →
  validateAndSetLDAPServerConnectivityAndSearchBase env upstream v s
  = ((ConnectionValidCondition hit.1, SearchBaseFoundCondition hit.1),
     mkSt (set_GroupSearchBase (GroupSearchBase hit.1)
             (set_UserSearchBase (UserSearchBase hit.1)
                (set_ConnectionProtocol (LDAPConnectionProtocol_ hit.1) (config s))))
          (cache s) (trace s)).
Proof.
  intros hit Hh Hu Hg. apply connectivity_reuse; [|exact Hu|exact Hg].
  fold hit. rewrite <- Hh. destruct hit; reflexivity.
Qed.

(** The connectivity step writes to no cache entry but the one under the
    upstream's own name, and so does [ValidateGenericLDAP]. *)
Theorem other_upstreams_entries_untouched (env : Env) (upstream : UpstreamGenericLDAPIDP)
    (informer : SecretInformer) (v : string) (s : St) (other : string) :
  other ≠ idp_Name upstream →
  cache (validateAndSetLDAPServerConnectivityAndSearchBase env upstream v s).2 !! other
  = cache s !! other
  ∧ cache (ValidateGenericLDAP env upstream informer s).2 !! other = cache s !! other.
Proof.
  intros Hne.
  assert (Hstep : ∀ v s,
    cache (validateAndSetLDAPServerConnectivityAndSearchBase env upstream v s).2 !! other
    = cache s !! other).
  { clear v s. intros v s.
    destruct (connectivity_cases env upstream v s) as [(Hh & Hu & Hg)|Hmiss].
    - rewrite (connectivity_reuse' env upstream v s Hh Hu Hg). reflexivity.
    - rewrite (connectivity_probe env upstream v s Hmiss). cbn [snd cache].
      destruct (noFailures _ _); [|reflexivity].
      apply lookup_insert_ne. congruence. }
  split; [apply Hstep|].
  rewrite ValidateGenericLDAP_steps.
  destruct (ValidateSecret_frame env informer (spec_BindSecretName upstream)
              (idp_Namespace upstream) s) as (_ & Ca & _).
  destruct (ValidateTLSConfig_frame env (spec_TLSSpec upstream)
              (ValidateSecret env informer (spec_BindSecretName upstream)
                 (idp_Namespace upstream) s).2) as (_ & Cb & _).
  destruct (_ && _); cbn [snd]; [rewrite Hstep|]; rewrite Cb, Ca; reflexivity.
Qed.

Lemma other_upstreams_entries_untouched_witness :
  let s := mkSt (Fixture.config0 "ldaps.example") {["idp2" := Fixture.settings]} [] in
  let r := ValidateGenericLDAP Fixture.env Fixture.upstream Fixture.oneSecret s in
  cache r.2 !! "idp2" = Some Fixture.settings.
Proof.
  intros s r.
  destruct (other_upstreams_entries_untouched Fixture.env Fixture.upstream
              Fixture.oneSecret "4242" s "idp2") as [_ H]; [discriminate|].
  fold r in H. rewrite H. reflexivity.
Defined.

(** A new cache is well formed, and [ValidateGenericLDAP] keeps the cache
    well formed: every entry it leaves carries a connection condition of
    type LDAPConnectionValid. *)
Theorem ValidateGenericLDAP_keeps_cacheWellFormed (env : Env)
    (upstream : UpstreamGenericLDAPIDP) (informer : SecretInformer) (s : St) :
  cacheWellFormed NewValidatedSettingsCache
  ∧ (cacheWellFormed (cache s) →
     cacheWellFormed (cache (ValidateGenericLDAP env upstream informer s).2)).
Proof.
  split.
  - intros n v Hv. unfold NewValidatedSettingsCache in Hv.
    rewrite lookup_empty in Hv. discriminate Hv.
  - intros Hwf. rewrite ValidateGenericLDAP_steps.
    destruct (ValidateSecret_frame env informer (spec_BindSecretName upstream)
                (idp_Namespace upstream) s) as (_ & Ca & _).
    destruct (ValidateTLSConfig_frame env (spec_TLSSpec upstream)
                (ValidateSecret env informer (spec_BindSecretName upstream)
                   (idp_Namespace upstream) s).2) as (_ & Cb & _).
    destruct (_ && _); cbn [snd].
    + apply connectivity_preserves_cacheWellFormed. rewrite Cb, Ca. exact Hwf.
    + rewrite Cb, Ca. exact Hwf.
Qed.

Lemma ValidateGenericLDAP_keeps_cacheWellFormed_witness :
  cacheWellFormed
    (cache (ValidateGenericLDAP Fixture.env Fixture.upstream Fixture.oneSecret
              (Fixture.st0 "ldaps.example")).2).
Proof.
  apply ValidateGenericLDAP_keeps_cacheWellFormed.
  intros n v Hv. cbn [cache Fixture.st0] in Hv. rewrite lookup_empty in Hv.
  discriminate Hv.
Defined.

(** After a probing pass without failures that left both search bases
    non-empty, a further pass for the same upstream name, generation and
    secret version, from any state holding the cache the first pass left,
    makes no connection attempt and no resolver query: it returns the same
    two conditions, leaves the cache as it is, and puts the first pass's
    protocol and search bases into the configuration. *)
Theorem second_pass_reuses_first (env : Env) (upstream : UpstreamGenericLDAPIDP)
    (v : string) (s s2 : St) :
  let hit := Get (cache s) (idp_Name upstream) v (idp_Generation upstream) in
  let r := validateAndSetLDAPServerConnectivityAndSearchBase env upstream v s in
  let r2 := validateAndSetLDAPServerConnectivityAndSearchBase env upstream v s2 in
  hit.2 = false ∨ UserSearchBase hit.1 = "" ∨ GroupSearchBase hit.1 = "" →
  (∃ conn, r.1.1 = Some conn ∧ Status conn = ConditionTrue
           ∧ (r.1.2 = None ∨ ∃ sb, r.1.2 = Some sb ∧ Status sb = ConditionTrue)) →
  us_Base (UserSearch (config r.2)) ≠ "" →
  gs_Base (GroupSearch (config r.2)) ≠ "" →
  cache s2 = cache r.2 →
  r2.1 = r.1
  ∧ trace r2.2 = trace s2
  ∧ cache r2.2 = cache s2
  ∧ ConnectionProtocol (config r2.2) = ConnectionProtocol (config r.2)
  ∧ us_Base (UserSearch (config r2.2)) = us_Base (UserSearch (config r.2))
  ∧ gs_Base (GroupSearch (config r2.2)) = gs_Base (GroupSearch (config r.2)).
Proof.
  intros hit r r2 Hmiss Hok Hu Hg Hc. subst r r2.
  rewrite (connectivity_probe env upstream v s Hmiss) in *.
  cbn [fst snd config cache trace] in *.
  set (p := TestConnection env (spec_BindSecretName upstream) v s) in *.
  set (d := spec_DetectAndSetSearchBase upstream (trace p.2) (config p.2)) in *.
  assert (Hnf : noFailures p.1 d.1 = true).
  { apply noFailures_iff. destruct Hok as (conn & [= <-] & Hst & Hsb). auto. }
  rewrite Hnf in Hc.
  set (entry := mkValidatedSettings (idp_Generation upstream) v
                  (ConnectionProtocol d.2) (us_Base (UserSearch d.2))
                  (gs_Base (GroupSearch d.2)) (Some p.1) d.1) in *.
  assert (Hget : Get (cache s2) (idp_Name upstream) v (idp_Generation upstream)
                 = (entry, true)).
  { rewrite Hc. apply Get_hit. rewrite lookup_insert_eq. auto. }
  rewrite (connectivity_reuse env upstream v s2 entry Hget Hu Hg).
  cbn [fst snd config cache trace]. repeat split.
Qed.

Lemma second_pass_reuses_first_witness :
  let s := Fixture.st0 "starttls.example" in
  let r := validateAndSetLDAPServerConnectivityAndSearchBase Fixture.env
             Fixture.upstream "4242" s in
  let s2 := mkSt (Fixture.config0 "down.example") (cache r.2) (trace r.2) in
  let r2 := validateAndSetLDAPServerConnectivityAndSearchBase Fixture.env
              Fixture.upstream "4242" s2 in
  length (trace r.2) = 3%nat
  ∧ trace r2.2 = trace r.2
  ∧ ConnectionProtocol (config r2.2) = StartTLS.
Proof.
  intros s r s2 r2. split; [reflexivity|].
  destruct (second_pass_reuses_first Fixture.env Fixture.upstream "4242" s s2)
    as (_ & Ht & _ & Hp & _).
  - left. reflexivity.
  - eexists. split; [reflexivity|]. split; [reflexivity|]. left. reflexivity.
  - discriminate.
  - discriminate.
  - reflexivity.
  - fold r2 in Ht, Hp. split; [exact Ht|]. rewrite Hp. reflexivity.
Defined.



(* ------------------------------------------------------------------ *)
(** ** Validation followed by the publication decision *)

Lemma connectivity_condition_nonNil (env : Env) (upstream : UpstreamGenericLDAPIDP)
    (v : string) (s : St) :
  (∀ n w, cache s !! n = Some w → is_Some (ConnectionValidCondition w)) →
  is_Some (validateAndSetLDAPServerConnectivityAndSearchBase env upstream v s).1.1.
Proof.
  intros Hnn.
  destruct (connectivity_cases env upstream v s) as [(Hh & Hu & Hg)|Hmiss].
  - rewrite (connectivity_reuse' env upstream v s Hh Hu Hg). cbn [fst].
    destruct (Get (cache s) (idp_Name upstream) v (idp_Generation upstream))
      as [vs b] eqn:Eg.
    cbn [fst snd] in *. subst b. apply Get_hit in Eg as (Hl & _).
    exact (Hnn _ _ Hl).
  - rewrite (connectivity_probe env upstream v s Hmiss). cbn [fst].
    eexists. reflexivity.
Qed.

(** When every cached entry carries a non-nil connection condition, of
    whatever type, the conditions [ValidateGenericLDAP] returns are between
    two and four, none of them nil, so [EvaluateConditions] does not panic
    on them, whatever configuration it is given. *)
Theorem validation_result_is_evaluable (env : Env) (upstream : UpstreamGenericLDAPIDP)
    (informer : SecretInformer) (s : St) (cfg : ProviderConfig) :
  (∀ n w, cache s !! n = Some w → is_Some (ConnectionValidCondition w)) →
  let r := ValidateGenericLDAP env upstream informer s in
  nonNil (gradatedConditions r.1)
  ∧ (2 ≤ length (gradatedConditions r.1) ≤ 4)%nat
  ∧ EvaluateConditions r.1 cfg ≠ None.
Proof.
  intros Hwf r.
  assert (Hnn : nonNil (gradatedConditions r.1)
                ∧ (2 ≤ length (gradatedConditions r.1) ≤ 4)%nat).
  { subst r. rewrite ValidateGenericLDAP_steps.
    destruct (ValidateSecret_frame env informer (spec_BindSecretName upstream)
                (idp_Namespace upstream) s) as (_ & Ca & _).
    set (a := ValidateSecret env informer (spec_BindSecretName upstream)
                (idp_Namespace upstream) s) in *.
    destruct (ValidateTLSConfig_frame env (spec_TLSSpec upstream) a.2) as (_ & Cb & _).
    set (b := ValidateTLSConfig env (spec_TLSSpec upstream) a.2) in *.
    destruct (_ && _); cbn [fst gradatedConditions].
    - destruct (connectivity_condition_nonNil env upstream a.1.2 b.2)
        as (conn & Hconn); [rewrite Cb, Ca; exact Hwf|].
      set (c := validateAndSetLDAPServerConnectivityAndSearchBase env upstream
                  a.1.2 b.2) in *.
      unfold probed. rewrite Hconn.
      destruct (c.1.2); (split; [|cbn; lia]);
        repeat (apply Forall_cons; split; [eexists; reflexivity|]); constructor.
    - split; [|cbn; lia].
      repeat (apply Forall_cons; split; [eexists; reflexivity|]); constructor. }
  destruct Hnn as [Hnn Hlen]. split; [exact Hnn|]. split; [exact Hlen|].
  unfold EvaluateConditions.
  destruct (rangeFailed_spec true _ Hnn) as (b1 & -> & _).
  destruct (rangeFailed_spec false _ Hnn) as (b2 & -> & _).
  destruct b1, b2; discriminate.
Qed.

Lemma validation_result_is_evaluable_witness :
  let entry := mkValidatedSettings 5 "4242" StartTLS "ou=users,dc=example"
                 "ou=groups,dc=example" (Some Fixture.bad) None in
  let s := mkSt (Fixture.config0 "down.example") {["idp1" := entry]} [] in
  let r := ValidateGenericLDAP Fixture.env Fixture.upstream Fixture.oneSecret s in
  (∀ n w, cache s !! n = Some w → is_Some (ConnectionValidCondition w))
  ∧ trace r.2 = []
  ∧ length (gradatedConditions r.1) = 3%nat
  ∧ EvaluateConditions r.1 (config r.2) ≠ None.
Proof.
  intros entry s r.
  assert (Hnn : ∀ n w, cache s !! n = Some w → is_Some (ConnectionValidCondition w)).
  { intros n w Hw. subst s. cbn [cache] in Hw.
    apply lookup_singleton_Some in Hw as [_ <-]. eexists. reflexivity. }
  split; [exact Hnn|]. split; [reflexivity|]. split; [reflexivity|].
  destruct (validation_result_is_evaluable Fixture.env Fixture.upstream
              Fixture.oneSecret s (config r.2) Hnn) as (_ & _ & H).
  exact H.
Defined.

(** When the bind-secret condition or the TLS condition is not true, the
    decision on what [ValidateGenericLDAP] returns is to withhold the
    provider and to retry. *)
Theorem invalid_secret_or_tls_withholds_provider (env : Env)
    (upstream : UpstreamGenericLDAPIDP) (informer : SecretInformer) (s : St)
    (cfg : ProviderConfig) :
  let a := ValidateSecret env informer (spec_BindSecretName upstream)
             (idp_Namespace upstream) s in
  let b := ValidateTLSConfig env (spec_TLSSpec upstream) a.2 in
  Status a.1.1 ≠ ConditionTrue ∨ Status b.1 ≠ ConditionTrue →
  EvaluateConditions (ValidateGenericLDAP env upstream informer s).1 cfg
  = Some (None, true).
Proof.
  intros a b Hbad. rewrite ValidateGenericLDAP_steps. fold a. fold b.
  assert (Hguard : bool_decide (Status a.1.1 = ConditionTrue)
                   && bool_decide (Status b.1 = ConditionTrue) = false).
  { destruct Hbad as [H|H]; rewrite (bool_decide_eq_false_2 _ H);
      [reflexivity|apply andb_false_r]. }
  rewrite Hguard. cbn [fst].
  unfold EvaluateConditions. cbn [gradatedConditions rangeFailed condition isFatal].
  destruct (decide (Status a.1.1 = ConditionTrue)) as [Ha|Ha].
  - destruct Hbad as [H|H]; [contradiction|].
    rewrite (bool_decide_eq_false_2 (Status a.1.1 ≠ ConditionTrue)) by auto.
    rewrite (bool_decide_eq_true_2 _ H). reflexivity.
  - rewrite (bool_decide_eq_true_2 _ Ha). reflexivity.
Qed.

Lemma invalid_secret_or_tls_withholds_provider_witness :
  let up := mkUpstream "idp1" "ns" 5 "ldaps.example" (Some (mkTLSSpec "aGVsbG8="))
              "bind-secret" (λ _ c, (None, c)) in
  let s := Fixture.st0 "ldaps.example" in
  EvaluateConditions (ValidateGenericLDAP Fixture.env up Fixture.oneSecret s).1
    (Fixture.config0 "ldaps.example")
  = Some (None, true).
Proof.
  intros up s.
  apply (invalid_secret_or_tls_withholds_provider Fixture.env up Fixture.oneSecret s).
  right. discriminate.
Defined.

Lemma EvaluateConditions_of_pass (a b conn : Condition) (sb : option Condition)
    (cfg : ProviderConfig) :
  Status a = ConditionTrue → Status b = ConditionTrue →
  EvaluateConditions
    (mkGradatedConditions
       ([mkGradated (Some a) true; mkGradated (Some b) true]
        ++ probed (Some conn, sb))) cfg
  = match sb with
    | Some x =>
        if bool_decide (Status x = ConditionTrue)
        then Some (Some (New cfg), negb (bool_decide (Status conn = ConditionTrue)))
        else Some (None, true)
    | None => Some (Some (New cfg), negb (bool_decide (Status conn = ConditionTrue)))
    end.
Proof.
  intros Ha Hb. unfold EvaluateConditions, probed.
  cbn [gradatedConditions app fst snd rangeFailed condition isFatal negb].
  rewrite Ha, Hb.
  rewrite (bool_decide_eq_false_2 (ConditionTrue ≠ ConditionTrue)) by auto.
  cbn [andb].
  destruct sb as [x|]; cbn [rangeFailed condition isFatal negb andb];
    rewrite ?andb_false_r, ?andb_true_r.
  - destruct (decide (Status x = ConditionTrue)) as [Hx|Hx].
    + rewrite (bool_decide_eq_true_2 _ Hx).
      rewrite (bool_decide_eq_false_2 (Status x ≠ ConditionTrue)) by auto.
      destruct (decide (Status conn = ConditionTrue)) as [Hc|Hc].
      * rewrite (bool_decide_eq_true_2 _ Hc).
        rewrite (bool_decide_eq_false_2 (Status conn ≠ ConditionTrue)) by auto.
        reflexivity.
      * rewrite (bool_decide_eq_false_2 _ Hc), (bool_decide_eq_true_2 _ Hc).
        reflexivity.
    + rewrite (bool_decide_eq_false_2 _ Hx), (bool_decide_eq_true_2 _ Hx).
      reflexivity.
  - destruct (decide (Status conn = ConditionTrue)) as [Hc|Hc].
    + rewrite (bool_decide_eq_true_2 _ Hc).
      rewrite (bool_decide_eq_false_2 (Status conn ≠ ConditionTrue)) by auto.
      reflexivity.
    + rewrite (bool_decide_eq_false_2 _ Hc), (bool_decide_eq_true_2 _ Hc).
      reflexivity.
Qed.

(** With a true bind-secret condition and a true TLS condition, the
    decision on what [ValidateGenericLDAP] returns follows the connectivity
    step: a search-base condition that is not true withholds the provider;
    otherwise a provider is made from the given configuration, with a retry
    exactly when the connection condition is not true. *)
Theorem valid_secret_and_tls_decision (env : Env) (upstream : UpstreamGenericLDAPIDP)
    (informer : SecretInformer) (s : St) (cfg : ProviderConfig) (conn : Condition) :
  let a := ValidateSecret env informer (spec_BindSecretName upstream)
             (idp_Namespace upstream) s in
  let b := ValidateTLSConfig env (spec_TLSSpec upstream) a.2 in
  let c := validateAndSetLDAPServerConnectivityAndSearchBase env upstream a.1.2 b.2 in
  let decision := EvaluateConditions (ValidateGenericLDAP env upstream informer s).1 cfg in
  Status a.1.1 = ConditionTrue → Status b.1 = ConditionTrue →
  c.1.1 = Some conn →
  ((∃ sb, c.1.2 = Some sb ∧ Status sb ≠ ConditionTrue) →
   decision = Some (None, true))
  ∧ ((c.1.2 = None ∨ ∃ sb, c.1.2 = Some sb ∧ Status sb = ConditionTrue) →
     (Status conn ≠ ConditionTrue → decision = Some (Some (New cfg), true))
     ∧ (Status conn = ConditionTrue → decision = Some (Some (New cfg), false))).
Proof.
  intros a b c decision Ha Hb Hconn. subst decision.
  rewrite ValidateGenericLDAP_steps. fold a. fold b. fold c.
  rewrite (bool_decide_eq_true_2 _ Ha), (bool_decide_eq_true_2 _ Hb).
  cbn [andb fst].
  destruct c.1 as [cc csb] eqn:Ec. cbn [fst snd] in *. subst cc.
  rewrite (EvaluateConditions_of_pass _ _ conn csb cfg Ha Hb).
  split.
  - intros (sb & -> & Hsb). rewrite (bool_decide_eq_false_2 _ Hsb). reflexivity.
  - intros Hsb.
    assert (Hd : match csb with
                 | Some x =>
                     if bool_decide (Status x = ConditionTrue)
                     then Some (Some (New cfg),
                                negb (bool_decide (Status conn = ConditionTrue)))
                     else Some (None, true)
                 | None => Some (Some (New cfg),
                                 negb (bool_decide (Status conn = ConditionTrue)))
                 end
                 = Some (Some (New cfg),
                         negb (bool_decide (Status conn = ConditionTrue)))).
    { destruct Hsb as [->|(sb & -> & Hsb)]; [reflexivity|].
      rewrite (bool_decide_eq_true_2 _ Hsb). reflexivity. }
    rewrite Hd. split; intros Hc.
    + rewrite (bool_decide_eq_false_2 _ Hc). reflexivity.
    + rewrite (bool_decide_eq_true_2 _ Hc). reflexivity.
Qed.

Lemma valid_secret_and_tls_decision_witness :
  let s := Fixture.st0 "down.example" in
  let r := ValidateGenericLDAP Fixture.env Fixture.upstream Fixture.oneSecret s in
  EvaluateConditions r.1 (config r.2) = Some (Some (New (config r.2)), true)
  ∧ ConnectionProtocol (config r.2) = TLS.
Proof.
  intros s r. split; [|reflexivity].
  destruct (valid_secret_and_tls_decision Fixture.env Fixture.upstream
              Fixture.oneSecret s (config r.2)
              (TestConnection Fixture.env "bind-secret" "4242"
                 (ValidateSecret Fixture.env Fixture.oneSecret "bind-secret" "ns" s).2).1)
    as [_ H]; [reflexivity|reflexivity|reflexivity|].
  destruct H as [H _]; [left; reflexivity|].
  apply H. discriminate.
Defined.

(** A pass of the connectivity step without failures leaves the cache
    answering Get, for the upstream's name, the secret version and the
    generation of the pass, with an entry that holds the conditions the
    pass returned. *)
Theorem successful_pass_is_cached (env : Env) (upstream : UpstreamGenericLDAPIDP)
    (v : string) (s : St) :
  let r := validateAndSetLDAPServerConnectivityAndSearchBase env upstream v s in
  let hit := Get (cache s) (idp_Name upstream) v (idp_Generation upstream) in
  hit.2 = false ∨ UserSearchBase hit.1 = "" ∨ GroupSearchBase hit.1 = "" →
  (∃ conn, r.1.1 = Some conn ∧ Status conn = ConditionTrue
           ∧ (r.1.2 = None ∨ ∃ sb, r.1.2 = Some sb ∧ Status sb = ConditionTrue)) →
  ∃ entry,
    Get (cache r.2) (idp_Name upstream) v (idp_Generation upstream) = (entry, true)
    ∧ ConnectionValidCondition entry = r.1.1
    ∧ SearchBaseFoundCondition entry = r.1.2
    ∧ LDAPConnectionProtocol_ entry = ConnectionProtocol (config r.2)
    ∧ UserSearchBase entry = us_Base (UserSearch (config r.2))
    ∧ GroupSearchBase entry = gs_Base (GroupSearch (config r.2)).
Proof.
  intros r hit Hmiss Hok. subst r.
  rewrite (connectivity_probe env upstream v s Hmiss) in *.
  cbn [fst snd config cache trace] in *.
  set (p := TestConnection env (spec_BindSecretName upstream) v s) in *.
  set (d := spec_DetectAndSetSearchBase upstream (trace p.2) (config p.2)) in *.
  assert (Hnf : noFailures p.1 d.1 = true).
  { apply noFailures_iff. destruct Hok as (conn & [= <-] & Hst & Hsb). auto. }
  rewrite Hnf. eexists. split.
  - apply Get_hit. rewrite lookup_insert_eq. split; [reflexivity|]. split; reflexivity.
  - repeat split.
Qed.

Lemma successful_pass_is_cached_witness :
  let s := Fixture.st0 "starttls.example" in
  let r := validateAndSetLDAPServerConnectivityAndSearchBase Fixture.env
             Fixture.upstream "4242" s in
  ∃ entry, Get (cache r.2) "idp1" "4242" 5 = (entry, true)
           ∧ LDAPConnectionProtocol_ entry = StartTLS.
Proof.
  intros s r.
  destruct (successful_pass_is_cached Fixture.env Fixture.upstream "4242" s)
    as (entry & Hg & _ & _ & Hp & _).
  - left. reflexivity.
  - eexists. split; [reflexivity|]. split; [reflexivity|]. left. reflexivity.
  - exists entry. split; [exact Hg|]. rewrite Hp. reflexivity.
Defined.

(** An entry cached for another secret version or another generation of
    the upstream is not used: the step probes the server, and when the
    probing pass has no failures the stale entry is replaced by one for the
    current secret version and generation. *)
Theorem stale_entry_forces_probe (env : Env) (upstream : UpstreamGenericLDAPIDP)
    (v : string) (s : St) (stale : ValidatedSettings) :
  cache s !! idp_Name upstream = Some stale →
  BindSecretResourceVersion stale ≠ v
  ∨ IDPSpecGeneration stale ≠ idp_Generation upstream →
  let r := validateAndSetLDAPServerConnectivityAndSearchBase env upstream v s in
  (∃ (probes : list Event) c,
     probes ≠ [] ∧ forallb isTestConnection probes = true
     ∧ trace r.2 = (trace s ++ probes ++ [EvDetectAndSetSearchBase c])%list)
  ∧ ((∃ conn, r.1.1 = Some conn ∧ Status conn = ConditionTrue
              ∧ (r.1.2 = None ∨ ∃ sb, r.1.2 = Some sb ∧ Status sb = ConditionTrue)) →
     ∃ fresh, cache r.2 !! idp_Name upstream = Some fresh
              ∧ BindSecretResourceVersion fresh = v
              ∧ IDPSpecGeneration fresh = idp_Generation upstream).
Proof.
  intros Hstale Hdiff r. subst r.
  assert (Hmiss : Get (cache s) (idp_Name upstream) v (idp_Generation upstream)
                  = (zeroValidatedSettings, false)).
  { apply Get_miss. intros w Hw [H1 H2].
    assert (w = stale) by congruence. subst w.
    destruct Hdiff; contradiction. }
  rewrite connectivity_probe by (rewrite Hmiss; left; reflexivity).
  cbn [fst snd config cache trace].
  set (p := TestConnection env (spec_BindSecretName upstream) v s).
  set (d := spec_DetectAndSetSearchBase upstream (trace p.2) (config p.2)).
  split.
  - destruct (TestConnection_trace env (spec_BindSecretName upstream) v s)
      as (probes & Ht & Hne & Hall).
    fold p in Ht. exists probes, (config p.2).
    split; [exact Hne|]. split; [exact Hall|].
    rewrite Ht, <- app_assoc. reflexivity.
  - intros (conn & [= <-] & Hst & Hsb).
    assert (Hnf : noFailures p.1 d.1 = true) by (apply noFailures_iff; auto).
    rewrite Hnf. eexists. rewrite lookup_insert_eq.
    split; [reflexivity|]. split; reflexivity.
Qed.

Lemma stale_entry_forces_probe_witness :
  let s := mkSt (Fixture.config0 "ldaps.example") {["idp1" := Fixture.settings]} [] in
  let r := validateAndSetLDAPServerConnectivityAndSearchBase Fixture.env
             Fixture.upstream "4243" s in
  trace r.2 ≠ []
  ∧ ∃ fresh, cache r.2 !! "idp1" = Some fresh
             ∧ BindSecretResourceVersion fresh = "4243".
Proof.
  intros s r.
  destruct (stale_entry_forces_probe Fixture.env Fixture.upstream "4243" s
              Fixture.settings) as [(probes & c & Hne & _ & Ht) Hw].
  - reflexivity.
  - left. discriminate.
  - fold r in Ht, Hw. split.
    + rewrite Ht. destruct probes; [contradiction|discriminate].
    + destruct Hw as (fresh & Hf & Hv & _).
      * eexists. split; [reflexivity|]. split; [reflexivity|]. left. reflexivity.
      * exists fresh. split; assumption.
Defined.

(* ------------------------------------------------------------------ *)
(** ** Failures as conditions *)


